(** * The turn-orchestration pipeline of the voice agent

    A shallow embedding of [main.py] ([try_fallback_tts], [agent_chat]) and of
    the three adapters under [services/] ([STTService.transcribe],
    [LLMService.get_response], [TTSService.synthesize]).

    Python text is a sequence of Unicode code points, so [str] is [list N];
    the process-wide dict [chat_sessions] is a [gmap]; the code runs in a
    small state-and-exception monad [Py] whose state is the session map
    together with the log of adapter calls made so far.  The three providers
    (AssemblyAI, Gemini, Murf) are outside the repository: they are oracles
    that may answer differently at every call. *)

From Stdlib Require Import NArith List String Ascii Lia.
From Stdlib.Strings Require Import Byte.
From stdpp Require Import base option list gmap.

(** ** Python values *)

Abbreviation str := (list N).
Abbreviation bytes := (list byte).

(** An ASCII literal of the source as a sequence of code points. *)
Definition lit (s : string) : str :=
  map N_of_ascii (list_ascii_of_string s).

(** [str.isspace] on one code point (CPython's [_PyUnicode_IsWhitespace]):
    U+0009..U+000D, U+001C..U+0020, U+0085, U+00A0, U+1680, U+2000..U+200A,
    U+2028, U+2029, U+202F, U+205F, U+3000. *)
Definition isspace (c : N) : bool :=
  (((9 <=? c) && (c <=? 13)) || ((28 <=? c) && (c <=? 32))
   || (c =? 133) || (c =? 160) || (c =? 5760)
   || ((8192 <=? c) && (c <=? 8202))
   || (c =? 8232) || (c =? 8233) || (c =? 8239) || (c =? 8287)
   || (c =? 12288))%N.

Fixpoint lstrip (s : str) : str :=
  match s with
  | c :: s' => if isspace c then lstrip s' else s
  | [] => []
  end.

Definition rstrip (s : str) : str := rev (lstrip (rev s)).

(** [s.strip()] *)
Definition strip (s : str) : str := rstrip (lstrip s).

(** Truth value of a sequence ([str], [bytes], [list]): non-empty. *)
Definition truthy {A} (s : list A) : bool :=
  match s with [] => false | _ :: _ => true end.

(** [o or d] for an [Optional[str]] [o]. *)
Definition py_or (o : option str) (d : str) : str :=
  match o with
  | Some s => if truthy s then s else d
  | None => d
  end.

(** [s[i:j]] for [0 <= i]. *)
Definition slice {A} (s : list A) (i j : nat) : list A :=
  firstn (j - i) (skipn i s).

(** [sep.join(parts)] *)
Fixpoint join (sep : str) (parts : list str) : str :=
  match parts with
  | [] => []
  | [p] => p
  | p :: rest => p ++ sep ++ join sep rest
  end.

(** [range(i, stop, step)] for a positive [step], unrolled at most [fuel]
    times. *)
Fixpoint range_from (fuel i stop step : nat) : list nat :=
  match fuel with
  | O => []
  | S fuel' =>
      if i <? stop then i :: range_from fuel' (i + step) stop step
      else []
  end.

(** [range(start, stop, step)]: [stop - start] iterations are always enough
    when [step] is positive. *)
Definition range (start stop step : nat) : list nat :=
  range_from (stop - start) start stop step.

(** ** Data model *)

(** The two values of a turn's ["role"] entry that the code writes. *)
Inductive Role := user | assistant.

(** One entry of a session list: [{"role": ..., "content": ...}]. *)
Record Turn := mkTurn { role : Role; content : str }.

(** The [error] dict of a response. *)
Record ErrorInfo := mkError { stage : str; message : str }.

Record ChatResponse := mkChatResponse {
  transcription : str;
  llm_response : str;
  audioFiles : list str;
  chat_history : list Turn;
  error : option ErrorInfo
}.

(** ** Constants of [main.py] *)

Definition FALLBACK_TEXT : str := lit "I'm having trouble connecting right now.".
Definition CHUNK_SIZE : nat := 3000.
Definition default_voice : str := lit "en-US-natalie".

(** ** Effects *)

(** Exceptions of class [Exception]; [str(e)] is the carried message. *)
Inductive exn :=
| ValueError (msg : str)
| AttributeError (msg : str)
| ProviderError (msg : str).

Definition str_of_exn (e : exn) : str :=
  match e with ValueError m | AttributeError m | ProviderError m => m end.

Inductive outcome (A : Type) :=
| Returned (a : A)
| Raised (e : exn).
Arguments Returned {A} a.
Arguments Raised {A} e.

(** One call of an adapter method, with its arguments. *)
Inductive Call :=
| CallSTT (audio_bytes : bytes)
| CallLLM (dialog : str)
| CallTTS (text : str) (voice_id : option str).

(** The state a cycle runs in: [chat_sessions], and the adapter calls made
    since the process started. *)
Record World := mkWorld {
  chat_sessions : gmap str (list Turn);
  calls : list Call
}.

Definition Py (A : Type) : Type := World -> outcome A * World.

Definition ret {A} (a : A) : Py A := fun w => (Returned a, w).

Definition bind {A B} (m : Py A) (k : A -> Py B) : Py B :=
  fun w =>
    match m w with
    | (Returned a, w') => k a w'
    | (Raised e, w') => (Raised e, w')
    end.

Definition raise {A} (e : exn) : Py A := fun w => (Raised e, w).

(** [try: body  except Exception as e: handler(e)]; what [body] did to the
    state before raising stays done. *)
Definition try_except {A} (body : Py A) (handler : exn -> Py A) : Py A :=
  fun w =>
    match body w with
    | (Returned a, w') => (Returned a, w')
    | (Raised e, w') => handler e w'
    end.

(** The result of something that happened outside, re-entering the code. *)
Definition lift {A} (o : outcome A) : Py A := fun w => (o, w).

Notation "x <- m ;; k" := (bind m (fun x => k))
  (at level 100, m at next level, right associativity).
Notation "m ;;; k" := (bind m (fun _ => k))
  (at level 100, right associativity).

(** Record an adapter call; the answer is its position in the log, which the
    providers' oracles are indexed by. *)
Definition log_call (c : Call) : Py nat :=
  fun w => (Returned (length (calls w)),
            mkWorld (chat_sessions w) (calls w ++ [c])).

(** [obj.attr] where [obj] may be [None]. *)
Definition getattr {A} (obj : option A) (attr : string) : Py A :=
  match obj with
  | Some a => ret a
  | None =>
      raise (AttributeError
               (lit "'NoneType' object has no attribute '" ++ lit attr ++ lit "'"))
  end.

(** ** The external providers

    Each oracle receives the position of the call in the log, so that two
    calls with the same arguments may end differently.  A client that was
    constructed without a credential is [None]. *)
Record Providers := mkProviders {
  (** [aai.Transcriber().transcribe(audio_bytes).text] *)
  aai_transcribe : nat -> bytes -> outcome (option str);
  (** [client.models.generate_content(model=..., contents=dialog).text] *)
  genai_client : option (nat -> str -> outcome (option str));
  (** [client.text_to_speech.generate(text=..., voice_id=..., ...).audio_file] *)
  murf_client : option (nat -> str -> str -> outcome (option str))
}.

(** ** The adapters ([services/]) *)

Section Pipeline.

Variable P : Providers.

(** [STTService.transcribe] *)
Definition transcribe (audio_bytes : bytes) : Py str :=
  k <- log_call (CallSTT audio_bytes) ;;
  try_except
    (text <- lift (aai_transcribe P k audio_bytes) ;;
     ret (py_or text []))
    (fun _ => ret []).

(** [LLMService.get_response] *)
Definition get_response (dialog : str) : Py str :=
  k <- log_call (CallLLM dialog) ;;
  try_except
    (client <- getattr (genai_client P) "models" ;;
     text <- lift (client k dialog) ;;
     ret (py_or text []))
    (fun _ => ret []).

(** [TTSService.synthesize] *)
Definition synthesize (text : str) (voice_id : option str) : Py (option str) :=
  k <- log_call (CallTTS text voice_id) ;;
  let voice_id := py_or voice_id default_voice in
  try_except
    (client <- getattr (murf_client P) "text_to_speech" ;;
     audio_file <- lift (client k text voice_id) ;;
     ret audio_file)
    (fun _ => ret None).

(** ** The session store *)

(** [chat_sessions.get(session_id, [])] *)
Definition sessions_get (session_id : str) : Py (list Turn) :=
  fun w => (Returned (default [] (chat_sessions w !! session_id)), w).

(** [chat_sessions.setdefault(session_id, [])]: the list it returns is the
    one stored under [session_id], which the code then mutates in place; the
    model keeps the key as the handle to that list. *)
Definition sessions_setdefault (session_id : str) : Py unit :=
  fun w =>
    match chat_sessions w !! session_id with
    | Some _ => (Returned tt, w)
    | None => (Returned tt, mkWorld (<[session_id := []]> (chat_sessions w)) (calls w))
    end.

(** [session.append(turn)] on the list stored under [session_id]. *)
Definition session_append (session_id : str) (t : Turn) : Py unit :=
  fun w =>
    (Returned tt,
     mkWorld (alter (fun l => l ++ [t]) session_id (chat_sessions w)) (calls w)).

(** Reading the list stored under [session_id] through its handle. *)
Definition session_read (session_id : str) : Py (list Turn) :=
  fun w => (Returned (default [] (chat_sessions w !! session_id)), w).

(** ** The orchestrator ([main.py]) *)

(** [try_fallback_tts] *)
Definition try_fallback_tts : Py (list str) :=
  audio_url <- synthesize FALLBACK_TEXT None ;;
  ret (match audio_url with
       | Some url => if truthy url then [url] else []
       | None => []
       end).

(** One line of the flattened dialog. *)
Definition dialog_line (m : Turn) : str :=
  (match role m with user => lit "User: " | assistant => lit "AI: " end)
    ++ content m.

(** The expression assigned to [dialog]. *)
Definition build_dialog (session : list Turn) : str :=
  join (lit (String "010" EmptyString)) (map dialog_line session)
    ++ lit (String "010" EmptyString) ++ lit "AI:".

(** The body of [for i in range(0, len(llm_text), CHUNK_SIZE)], over the
    remaining indices, with [audio_urls] as accumulated so far. *)
Fixpoint tts_loop (llm_text : str) (indices : list nat) (audio_urls : list str)
  : Py (list str) :=
  match indices with
  | [] => ret audio_urls
  | i :: rest =>
      let chunk := slice llm_text i (i + CHUNK_SIZE) in
      audio_url <- synthesize chunk None ;;
      tts_loop llm_text rest
        (match audio_url with
         | Some url => if truthy url then audio_urls ++ [url] else audio_urls
         | None => audio_urls
         end)
  end.

(** The synthesis loop of [agent_chat], from [audio_urls = []] on. *)
Definition chunked_synthesis (llm_text : str) : Py (list str) :=
  tts_loop llm_text (range 0 (length llm_text) CHUNK_SIZE) [].

(** [agent_chat]; [file_read] is how [await file.read()] ended. *)
Definition agent_chat (session_id : str) (file_read : outcome bytes)
  : Py ChatResponse :=
  checked <-
    try_except
      (audio_bytes <- lift file_read ;;
       if negb (truthy audio_bytes) then
         raise (ValueError (lit "No audio bytes received"))
       else ret (inl audio_bytes))
      (fun e => ret (inr e)) ;;
  match checked with
  | inr e =>
      audio <- try_fallback_tts ;;
      history <- sessions_get session_id ;;
      ret (mkChatResponse [] FALLBACK_TEXT audio history
             (Some (mkError (lit "input") (str_of_exn e))))
  | inl audio_bytes =>
      user_text <- transcribe audio_bytes ;;
      if negb (truthy (strip user_text)) then
        audio <- try_fallback_tts ;;
        history <- sessions_get session_id ;;
        ret (mkChatResponse [] FALLBACK_TEXT audio history
               (Some (mkError (lit "stt") (lit "Empty transcription"))))
      else
        sessions_setdefault session_id ;;;
        session_append session_id (mkTurn user user_text) ;;;
        session <- session_read session_id ;;
        let dialog := build_dialog session in
        llm_text <- get_response dialog ;;
        if negb (truthy (strip llm_text)) then
          session_append session_id (mkTurn assistant FALLBACK_TEXT) ;;;
          audio <- try_fallback_tts ;;
          session <- session_read session_id ;;
          ret (mkChatResponse user_text FALLBACK_TEXT audio session
                 (Some (mkError (lit "llm") (lit "Empty LLM output"))))
        else
          session_append session_id (mkTurn assistant llm_text) ;;;
          audio_urls <- chunked_synthesis llm_text ;;
          audio_urls <- (if negb (truthy audio_urls) then try_fallback_tts
                         else ret audio_urls) ;;
          session <- session_read session_id ;;
          ret (mkChatResponse user_text llm_text audio_urls session None)
  end.

End Pipeline.

(** ** Vocabulary of the statements *)

(** Empty or whitespace-only text. *)
Definition blank (s : str) : bool := forallb isspace s.

(** The turns stored under [session_id] (none when the key is absent). *)
Definition session_of (w : World) (session_id : str) : list Turn :=
  default [] (chat_sessions w !! session_id).

(** The stage named by a response's [error] entry, if it has one. *)
Definition error_stage (r : ChatResponse) : option str :=
  stage <$> error r.

(** The state in which the generator is called: the transcription call is
    logged and the user turn stored. *)
Definition at_generation (w : World) (session_id : str) (audio_bytes : bytes)
    (user_text : str) : World :=
  mkWorld
    (<[session_id := session_of w session_id ++ [mkTurn user user_text]]>
       (chat_sessions w))
    (calls w ++ [CallSTT audio_bytes]).

(** The state in which the synthesis loop starts: the generator call is
    logged too, and the assistant turn stored. *)
Definition at_synthesis (w : World) (session_id : str) (audio_bytes : bytes)
    (user_text llm_text : str) : World :=
  mkWorld
    (<[session_id := session_of w session_id
                       ++ [mkTurn user user_text; mkTurn assistant llm_text]]>
       (chat_sessions w))
    (calls w ++ [CallSTT audio_bytes;
                 CallLLM (build_dialog
                            (session_of w session_id ++ [mkTurn user user_text]))]).

(** The dialog format in the specification's words: every turn is one line,
    [User: ] or [AI: ] followed by its content and a newline, in session
    order, and the text ends with the cue [AI:]. *)
Definition dialog_by_lines (session : list Turn) : str :=
  concat (map (fun m =>
                 (match role m with
                  | user => lit "User: "
                  | assistant => lit "AI: "
                  end) ++ content m ++ lit (String "010" EmptyString))
              session)
    ++ lit "AI:".

(** The states the process can be in: it starts with no session and no call
    made, and runs one cycle after another. *)
Inductive reachable (P : Providers) : World -> Prop :=
| reachable_start : reachable P (mkWorld ∅ [])
| reachable_cycle w session_id file_read :
    reachable P w ->
    reachable P (snd (agent_chat P session_id file_read w)).

(** Every stored turn has content that is not blank. *)
Definition contents_nonblank (w : World) : Prop :=
  forall session_id session,
    chat_sessions w !! session_id = Some session ->
    Forall (fun m => blank (content m) = false) session.

(** ** What a run computes

    The value each adapter returns when its call is number [k] of the log,
    and the state after logging a call; the run lemmas below relate them to
    the monadic code. *)

Definition logged (w : World) (c : Call) : World :=
  mkWorld (chat_sessions w) (calls w ++ [c]).

Definition transcribe_answer (P : Providers) (k : nat) (audio_bytes : bytes)
  : str :=
  match aai_transcribe P k audio_bytes with
  | Returned text => py_or text []
  | Raised _ => []
  end.

Definition get_response_answer (P : Providers) (k : nat) (dialog : str) : str :=
  match genai_client P with
  | Some client =>
      match client k dialog with
      | Returned text => py_or text []
      | Raised _ => []
      end
  | None => []
  end.

Definition synthesize_answer (P : Providers) (k : nat) (text : str)
    (voice_id : option str) : option str :=
  match murf_client P with
  | Some client =>
      match client k text (py_or voice_id default_voice) with
      | Returned audio_file => audio_file
      | Raised _ => None
      end
  | None => None
  end.

Definition fallback_audio (P : Providers) (k : nat) : list str :=
  match synthesize_answer P k FALLBACK_TEXT None with
  | Some url => if truthy url then [url] else []
  | None => []
  end.

Definition chunk_at (llm_text : str) (i : nat) : str :=
  slice llm_text i (i + CHUNK_SIZE).

Fixpoint collected (P : Providers) (k : nat) (llm_text : str)
    (indices : list nat) (audio_urls : list str) : list str :=
  match indices with
  | [] => audio_urls
  | i :: rest =>
      collected P (S k) llm_text rest
        (match synthesize_answer P k (chunk_at llm_text i) None with
         | Some url => if truthy url then audio_urls ++ [url] else audio_urls
         | None => audio_urls
         end)
  end.

(** The calls of [synthesize] in a log. *)
Definition is_tts_call (c : Call) : Prop :=
  match c with CallTTS _ _ => True | _ => False end.

(** Where a turn appended by a cycle comes from: the cycle got past the
    transcription with text that is not blank; a user turn carries that
    text, an assistant turn the fallback text or the generator's reply, which
    is then not blank. *)
Definition appended_by (P : Providers) (w : World) (session_id : str)
    (file_read : outcome bytes) (m : Turn) : Prop :=
  exists audio_bytes user_text,
    file_read = Returned audio_bytes
    /\ fst (transcribe P audio_bytes w) = Returned user_text
    /\ blank user_text = false
    /\ match role m with
       | user => content m = user_text
       | assistant =>
           content m = FALLBACK_TEXT
           \/ (blank (content m) = false
               /\ fst (get_response P
                         (build_dialog
                            (session_of w session_id
                               ++ [mkTurn user user_text]))
                         (at_generation w session_id audio_bytes user_text))
                  = Returned (content m))
       end.

(** ** Sample providers and inputs *)

Definition hello : str := lit "hello".
Definition audio0 : bytes := [x01; x02].
Definition sid0 : str := lit "s1".
Definition w0 : World := mkWorld ∅ [].

(** Every provider answers. *)
Definition P_ok : Providers :=
  mkProviders
    (fun _ _ => Returned (Some hello))
    (Some (fun _ _ => Returned (Some (lit "hi there"))))
    (Some (fun k _ _ => Returned (Some (lit "https://murf/" ++ [N.of_nat k])))).

(** The recogniser hears only white space. *)
Definition P_silence : Providers :=
  mkProviders
    (fun _ _ => Returned (Some (lit "   ")))
    (genai_client P_ok) (murf_client P_ok).

(** The generator answers with the empty text. *)
Definition P_mute : Providers :=
  mkProviders
    (aai_transcribe P_ok)
    (Some (fun _ _ => Returned (Some [])))
    (murf_client P_ok).

(** The synthesiser has no credential. *)
Definition P_no_voice : Providers :=
  mkProviders (aai_transcribe P_ok) (genai_client P_ok) None.

(** The synthesiser fails at the third call of the log and works again
    afterwards. *)
Definition P_flaky : Providers :=
  mkProviders
    (aai_transcribe P_ok) (genai_client P_ok)
    (Some (fun k _ _ =>
             if k =? 2 then Raised (ProviderError (lit "quota exceeded"))
             else Returned (Some (lit "https://murf/" ++ [N.of_nat k])))).

(** The generator answers with 7000 characters. *)
Definition P_long : Providers :=
  mkProviders
    (aai_transcribe P_ok)
    (Some (fun _ _ => Returned (Some (repeat 97%N (7 * 1000)))))
    (murf_client P_ok).

(** The length of the text an adapter was called with. *)
Definition call_size (c : Call) : nat :=
  match c with
  | CallSTT audio_bytes => length audio_bytes
  | CallLLM dialog => length dialog
  | CallTTS text _ => length text
  end.

(** ** The services, as [main.py] builds them *)

(** What [os.getenv] gave for the three credentials ([None]: not set). *)
Record Environment := mkEnvironment {
  MURF_API_KEY : option str;
  ASSEMBLYAI_API_KEY : option str;
  GEMINI_API_KEY : option str
}.

(** The providers' libraries: the recogniser reads the key that
    [STTService.__init__] stores in [aai.settings.api_key]; [genai.Client]
    and [Murf] build a client from a key. *)
Record SDK := mkSDK {
  aai_with_key : option str -> nat -> bytes -> outcome (option str);
  genai_Client : str -> nat -> str -> outcome (option str);
  Murf : str -> nat -> str -> str -> outcome (option str)
}.

(** [self.client = Client(api_key=api_key) if api_key else None], the line
    shared by [LLMService.__init__] and [TTSService.__init__]. *)
Definition client_if_key {C : Type} (Client : str -> C) (api_key : option str)
  : option C :=
  match api_key with
  | Some key => if truthy key then Some (Client key) else None
  | None => None
  end.

(** [stt_service], [llm_service] and [tts_service] of [main.py]. *)
Definition services (sdk : SDK) (env : Environment) : Providers :=
  mkProviders
    (aai_with_key sdk (ASSEMBLYAI_API_KEY env))
    (client_if_key (genai_Client sdk) (GEMINI_API_KEY env))
    (client_if_key (Murf sdk) (MURF_API_KEY env)).

(** ** Serving requests

    After [await file.read()] the handler does not yield, so the cycles of
    one process happen one after another; a request is the session
    identifier of the route and how reading the upload ended. *)
Fixpoint serve (P : Providers) (requests : list (str * outcome bytes))
    (w : World) : list (outcome ChatResponse) * World :=
  match requests with
  | [] => ([], w)
  | (session_id, file_read) :: rest =>
      let (r, w') := agent_chat P session_id file_read w in
      let (rs, w'') := serve P rest w' in
      (r :: rs, w'')
  end.

(** ** More vocabulary *)

(** A list of turns made of user turns each followed by an assistant turn. *)
Fixpoint alternating (session : list Turn) : bool :=
  match session with
  | [] => true
  | mkTurn user _ :: mkTurn assistant _ :: rest => alternating rest
  | _ => false
  end.

(** The requests of [session_id] that were answered with a transcription,
    counted over requests paired with their responses. *)
Definition heard (session_id : str)
    (answered : (str * outcome bytes) * outcome ChatResponse) : bool :=
  match answered with
  | ((sid, _), Returned r) =>
      bool_decide (sid = session_id) && truthy (transcription r)
  | (_, Raised _) => false
  end.

(** The reference a [synthesize] result contributes to the audio list. *)
Definition reference_of (result : outcome (option str)) : list str :=
  match result with
  | Returned (Some url) => if truthy url then [url] else []
  | _ => []
  end.

(** The state in which the synthesis loop makes its call number [j]: the
    [j] earlier chunks have been logged. *)
Definition after_chunks (w : World) (chunks : list str) (j : nat) : World :=
  mkWorld (chat_sessions w)
    (calls w ++ map (fun chunk => CallTTS chunk None) (firstn j chunks)).

(** The reference contributed by the chunk starting at [i] when its call is
    number [k + j] of the log. *)
Definition reference_at (P : Providers) (llm_text : str) (k j i : nat)
  : list str :=
  match synthesize_answer P (k + j) (chunk_at llm_text i) None with
  | Some url => if truthy url then [url] else []
  | None => []
  end.

(** A sample library, and environments with one credential missing. *)
Definition sdk0 : SDK :=
  mkSDK (fun _ => aai_transcribe P_ok)
        (fun _ _ _ => Returned (Some (lit "hi there")))
        (fun _ k _ _ => Returned (Some (lit "https://murf/" ++ [N.of_nat k]))).

Definition env_no_murf : Environment :=
  mkEnvironment None (Some (lit "aai-key")) (Some (lit "gemini-key")).

Definition env_empty_gemini : Environment :=
  mkEnvironment (Some (lit "murf-key")) (Some (lit "aai-key")) (Some []).



(** * Properties *)

(** ** Text helpers *)

Lemma lstrip_nil_iff (s : str) : lstrip s = [] <-> blank s = true.
Proof.
  unfold blank. induction s as [|c s IH]; simpl; [tauto|].
  destruct (isspace c); simpl; [exact IH|]. split; discriminate.
Qed.

Lemma lstrip_head (s : str) c s' : lstrip s = c :: s' -> isspace c = false.
Proof.
  induction s as [|d s IH]; simpl; [discriminate|].
  destruct (isspace d) eqn:E; [exact IH|]. intros [= <- _]. exact E.
Qed.

Lemma blank_rev (s : str) : blank (rev s) = blank s.
Proof.
  unfold blank. induction s as [|c s IH]; simpl; [reflexivity|].
  rewrite forallb_app, IH. simpl. rewrite andb_true_r. apply andb_comm.
Qed.

(** The test [not s.strip()] of the source holds exactly of the texts that
    are empty or made of white space only. *)
Lemma strip_blank (s : str) : negb (truthy (strip s)) = blank s.
Proof.
  unfold strip, rstrip.
  destruct (blank s) eqn:B.
  - apply lstrip_nil_iff in B. rewrite B. reflexivity.
  - destruct (lstrip s) as [|c s'] eqn:L.
    + apply lstrip_nil_iff in L. congruence.
    + assert (Hb : blank (rev (c :: s')) = false).
      { rewrite blank_rev. unfold blank. simpl.
        rewrite (lstrip_head _ _ _ L). reflexivity. }
      destruct (lstrip (rev (c :: s'))) as [|d t] eqn:L2.
      * apply lstrip_nil_iff in L2. congruence.
      * simpl. destruct (rev t ++ [d]) eqn:E; [|reflexivity].
        destruct (rev t); discriminate.
Qed.

Lemma FALLBACK_TEXT_nonblank : blank FALLBACK_TEXT = false.
Proof. reflexivity. Qed.

(** ** [range] and the chunks *)

Section Chunks.

Variable step : nat.
Hypothesis step_pos : 0 < step.

Lemma range_from_bounds fuel i stop :
  stop - i <= fuel ->
  stop - i <= length (range_from fuel i stop step) * step
  /\ length (range_from fuel i stop step) * step < stop - i + step.
Proof.
  revert i. induction fuel as [|fuel IH]; intros i Hf; simpl.
  - lia.
  - destruct (Nat.ltb_spec i stop) as [Hlt|Hge]; simpl; [|lia].
    destruct (IH (i + step)) as [H1 H2]; [lia|].
    split; [lia|].
    destruct (Nat.le_gt_cases (i + step) stop); [lia|].
    destruct (length (range_from fuel (i + step) stop step)); simpl in *; nia.
Qed.

Lemma range_from_lookup fuel i stop k j :
  range_from fuel i stop step !! k = Some j -> j = i + k * step /\ j < stop.
Proof.
  revert i k. induction fuel as [|fuel IH]; intros i k; simpl; [discriminate|].
  destruct (Nat.ltb_spec i stop) as [Hlt|Hge]; [|discriminate].
  destruct k as [|k]; simpl.
  - intros [= <-]. lia.
  - intros H. apply IH in H. lia.
Qed.



End Chunks.


(** ** Runs of the adapters *)

Section Runs.

Variable P : Providers.

Lemma transcribe_run audio_bytes w :
  transcribe P audio_bytes w
  = (Returned (transcribe_answer P (length (calls w)) audio_bytes),
     logged w (CallSTT audio_bytes)).
Proof.
  unfold transcribe, transcribe_answer, bind, try_except, lift, log_call, ret.
  simpl. destruct (aai_transcribe P _ _); reflexivity.
Qed.

Lemma get_response_run dialog w :
  get_response P dialog w
  = (Returned (get_response_answer P (length (calls w)) dialog),
     logged w (CallLLM dialog)).
Proof.
  unfold get_response, get_response_answer, getattr, bind, try_except, lift,
    log_call, ret, raise.
  simpl. destruct (genai_client P) as [client|]; [|reflexivity].
  destruct (client _ _); reflexivity.
Qed.

Lemma synthesize_run text voice_id w :
  synthesize P text voice_id w
  = (Returned (synthesize_answer P (length (calls w)) text voice_id),
     logged w (CallTTS text voice_id)).
Proof.
  unfold synthesize, synthesize_answer, getattr, bind, try_except, lift,
    log_call, ret, raise.
  simpl. destruct (murf_client P) as [client|]; [|reflexivity].
  destruct (client _ _ _); reflexivity.
Qed.

Lemma try_fallback_tts_run w :
  try_fallback_tts P w
  = (Returned (fallback_audio P (length (calls w))),
     logged w (CallTTS FALLBACK_TEXT None)).
Proof.
  unfold try_fallback_tts, fallback_audio, bind. rewrite synthesize_run.
  reflexivity.
Qed.

Lemma tts_loop_run llm_text indices audio_urls w :
  tts_loop P llm_text indices audio_urls w
  = (Returned (collected P (length (calls w)) llm_text indices audio_urls),
     mkWorld (chat_sessions w)
       (calls w ++ map (fun i => CallTTS (chunk_at llm_text i) None) indices)).
Proof.
  revert audio_urls w.
  induction indices as [|i rest IH]; intros audio_urls w.
  - simpl. rewrite app_nil_r. destruct w; reflexivity.
  - cbn [tts_loop collected map]. unfold bind. rewrite synthesize_run.
    rewrite IH. unfold logged. cbn [calls chat_sessions].
    rewrite length_app, <- app_assoc. cbn [length app].
    replace (length (calls w) + 1) with (S (length (calls w))) by lia.
    reflexivity.
Qed.

End Runs.

(** ** Runs of the session store *)

Lemma user_turn_stored session_id t w :
  (sessions_setdefault session_id ;;; session_append session_id t) w
  = (Returned tt,
     mkWorld (<[session_id := session_of w session_id ++ [t]]> (chat_sessions w))
       (calls w)).
Proof.
  unfold bind, sessions_setdefault, session_append, session_of.
  destruct (chat_sessions w !! session_id) as [l|] eqn:E; cbn [chat_sessions calls default].
  - rewrite (alter_alt_Some _ _ _ _ E). reflexivity.
  - rewrite alter_insert_eq. reflexivity.
Qed.

Lemma session_append_stored session_id l t m c :
  session_append session_id t (mkWorld (<[session_id := l]> m) c)
  = (Returned tt, mkWorld (<[session_id := l ++ [t]]> m) c).
Proof.
  unfold session_append. cbn [chat_sessions calls].
  rewrite alter_insert_eq. reflexivity.
Qed.

Lemma session_read_stored session_id l m c :
  session_read session_id (mkWorld (<[session_id := l]> m) c)
  = (Returned l, mkWorld (<[session_id := l]> m) c).
Proof.
  unfold session_read. cbn [chat_sessions]. rewrite lookup_insert_eq. reflexivity.
Qed.

Lemma session_of_stored session_id l m c :
  session_of (mkWorld (<[session_id := l]> m) c) session_id = l.
Proof.
  unfold session_of. cbn [chat_sessions]. rewrite lookup_insert_eq. reflexivity.
Qed.

(** ** The four exits of [agent_chat] *)

Section Exits.

Variable P : Providers.
Variable session_id : str.
Variable w : World.

Let k := length (calls w).
Let before := session_of w session_id.

Lemma agent_chat_input file_read e :
  (file_read = Raised e
   \/ file_read = Returned [] /\ e = ValueError (lit "No audio bytes received")) ->
  agent_chat P session_id file_read w
  = (Returned
       (mkChatResponse [] FALLBACK_TEXT (fallback_audio P k) before
          (Some (mkError (lit "input") (str_of_exn e)))),
     logged w (CallTTS FALLBACK_TEXT None)).
Proof.
  intros [->|[-> ->]]; unfold agent_chat;
    unfold bind, try_except, lift, raise, ret; cbn beta iota;
    cbn [truthy negb]; rewrite try_fallback_tts_run; reflexivity.
Qed.

Lemma agent_chat_stt audio_bytes :
  audio_bytes <> [] ->
  blank (transcribe_answer P k audio_bytes) = true ->
  agent_chat P session_id (Returned audio_bytes) w
  = (Returned
       (mkChatResponse [] FALLBACK_TEXT (fallback_audio P (S k)) before
          (Some (mkError (lit "stt") (lit "Empty transcription")))),
     mkWorld (chat_sessions w)
       (calls w ++ [CallSTT audio_bytes; CallTTS FALLBACK_TEXT None])).
Proof.
  intros Ha Hb. destruct audio_bytes as [|b bs]; [congruence|].
  unfold agent_chat.
  unfold bind, try_except, lift, raise, ret; cbn beta iota; cbn [truthy negb].
  rewrite transcribe_run, strip_blank. fold k. rewrite Hb.
  rewrite try_fallback_tts_run. unfold logged, sessions_get.
  cbn [calls chat_sessions]. rewrite length_app, <- app_assoc. cbn [length app].
  replace (length (calls w) + 1) with (S k) by (unfold k; lia).
  reflexivity.
Qed.

(** Both later exits share the prefix up to the generator call. *)
Lemma agent_chat_generation audio_bytes :
  audio_bytes <> [] ->
  blank (transcribe_answer P k audio_bytes) = false ->
  let user_text := transcribe_answer P k audio_bytes in
  let session := before ++ [mkTurn user user_text] in
  let llm_text := get_response_answer P (S k) (build_dialog session) in
  agent_chat P session_id (Returned audio_bytes) w
  = (if blank llm_text then
       (session_append session_id (mkTurn assistant FALLBACK_TEXT) ;;;
        audio <- try_fallback_tts P ;;
        session <- session_read session_id ;;
        ret (mkChatResponse user_text FALLBACK_TEXT audio session
               (Some (mkError (lit "llm") (lit "Empty LLM output")))))
     else
       (session_append session_id (mkTurn assistant llm_text) ;;;
        audio_urls <- chunked_synthesis P llm_text ;;
        audio_urls <- (if negb (truthy audio_urls) then try_fallback_tts P
                       else ret audio_urls) ;;
        session <- session_read session_id ;;
        ret (mkChatResponse user_text llm_text audio_urls session None)))
      (mkWorld (<[session_id := session]> (chat_sessions w))
         (calls w ++ [CallSTT audio_bytes; CallLLM (build_dialog session)])).
Proof.
  intros Ha Hb user_text session llm_text.
  destruct audio_bytes as [|b bs]; [congruence|].
  unfold agent_chat.
  unfold bind at 1. unfold try_except, lift, raise, ret; cbn beta iota.
  unfold bind at 1. cbn beta iota. cbn [truthy negb].
  unfold bind at 1. rewrite transcribe_run, strip_blank. fold k. rewrite Hb.
  cbn [negb]. fold user_text.
  unfold bind at 1. unfold bind at 1.
  pose proof (user_turn_stored session_id (mkTurn user user_text)
                (logged w (CallSTT (b :: bs)))) as Hs.
  unfold bind in Hs at 1.
  destruct (sessions_setdefault session_id (logged w (CallSTT (b :: bs))))
    as [[[]|e0] w1] eqn:E1; [|discriminate].
  rewrite Hs. clear Hs E1 w1.
  change (session_of (logged w (CallSTT (b :: bs))) session_id) with before.
  fold session. cbn [logged chat_sessions calls].
  unfold bind at 1. rewrite session_read_stored.
  unfold bind at 1. rewrite get_response_run. cbn [calls].
  rewrite length_app. cbn [length].
  replace (length (calls w) + 1) with (S k) by (unfold k; lia).
  fold llm_text. rewrite strip_blank.
  unfold logged. cbn [chat_sessions calls]. rewrite <- app_assoc. cbn [app].
  destruct (blank llm_text); reflexivity.
Qed.

Lemma agent_chat_llm audio_bytes :
  audio_bytes <> [] ->
  blank (transcribe_answer P k audio_bytes) = false ->
  let user_text := transcribe_answer P k audio_bytes in
  let dialog := build_dialog (before ++ [mkTurn user user_text]) in
  let session :=
    before ++ [mkTurn user user_text; mkTurn assistant FALLBACK_TEXT] in
  blank (get_response_answer P (S k) dialog) = true ->
  agent_chat P session_id (Returned audio_bytes) w
  = (Returned
       (mkChatResponse user_text FALLBACK_TEXT (fallback_audio P (S (S k)))
          session
          (Some (mkError (lit "llm") (lit "Empty LLM output")))),
     mkWorld (<[session_id := session]> (chat_sessions w))
       (calls w ++ [CallSTT audio_bytes; CallLLM dialog;
                    CallTTS FALLBACK_TEXT None])).
Proof.
  intros Ha Hb user_text dialog session Hl.
  rewrite (agent_chat_generation _ Ha Hb). fold user_text dialog. rewrite Hl.
  unfold bind at 1. rewrite session_append_stored.
  rewrite <- app_assoc. cbn [app]. fold session.
  unfold bind at 1. rewrite try_fallback_tts_run.
  unfold logged. cbn [chat_sessions calls].
  unfold bind at 1. rewrite session_read_stored. unfold ret.
  rewrite length_app, <- app_assoc. cbn [length app].
  replace (length (calls w) + 2) with (S (S k)) by (unfold k; lia).
  reflexivity.
Qed.

Lemma agent_chat_success audio_bytes :
  audio_bytes <> [] ->
  blank (transcribe_answer P k audio_bytes) = false ->
  let user_text := transcribe_answer P k audio_bytes in
  let dialog := build_dialog (before ++ [mkTurn user user_text]) in
  let llm_text := get_response_answer P (S k) dialog in
  let session := before ++ [mkTurn user user_text; mkTurn assistant llm_text] in
  let indices := range 0 (length llm_text) CHUNK_SIZE in
  let urls := collected P (S (S k)) llm_text indices [] in
  blank llm_text = false ->
  agent_chat P session_id (Returned audio_bytes) w
  = (Returned
       (mkChatResponse user_text llm_text
          (if negb (truthy urls)
           then fallback_audio P (S (S k) + length indices) else urls)
          session None),
     mkWorld (<[session_id := session]> (chat_sessions w))
       (calls w ++ [CallSTT audio_bytes; CallLLM dialog]
          ++ map (fun i => CallTTS (chunk_at llm_text i) None) indices
          ++ (if negb (truthy urls) then [CallTTS FALLBACK_TEXT None] else []))).
Proof.
  intros Ha Hb user_text dialog llm_text session indices urls Hl.
  rewrite (agent_chat_generation _ Ha Hb). fold user_text dialog llm_text.
  rewrite Hl.
  unfold bind at 1. rewrite session_append_stored.
  rewrite <- app_assoc. cbn [app]. fold session.
  unfold bind at 1. unfold chunked_synthesis. rewrite tts_loop_run.
  cbn [chat_sessions calls]. fold indices.
  rewrite length_app. cbn [length].
  replace (length (calls w) + 2) with (S (S k)) by (unfold k; lia).
  fold urls.
  unfold bind at 1.
  destruct (negb (truthy urls)).
  - rewrite try_fallback_tts_run. unfold logged. cbn [chat_sessions calls].
    unfold bind at 1. rewrite session_read_stored. unfold ret.
    rewrite !length_app, length_map. cbn [length].
    replace (length (calls w) + 2 + length indices)
      with (S (S k) + length indices) by (unfold k; lia).
    rewrite <- !app_assoc. reflexivity.
  - unfold ret at 1. unfold bind at 1. rewrite session_read_stored. unfold ret.
    rewrite app_nil_r, <- app_assoc. reflexivity.
Qed.

End Exits.

(** The two states named in the statements are the ones the code passes
    through: [at_generation] after the transcription and the storing of the
    user turn, [at_synthesis] after the generator call and the storing of
    the assistant turn. *)
Lemma at_generation_reached P session_id audio_bytes w :
  (user_text <- transcribe P audio_bytes ;;
   sessions_setdefault session_id ;;;
   session_append session_id (mkTurn user user_text) ;;;
   ret user_text) w
  = (Returned (transcribe_answer P (length (calls w)) audio_bytes),
     at_generation w session_id audio_bytes
       (transcribe_answer P (length (calls w)) audio_bytes)).
Proof.
  unfold bind at 1. rewrite transcribe_run.
  pose proof (user_turn_stored session_id
                (mkTurn user (transcribe_answer P (length (calls w)) audio_bytes))
                (logged w (CallSTT audio_bytes))) as Hs.
  unfold bind in Hs |- *.
  destruct (sessions_setdefault session_id (logged w (CallSTT audio_bytes)))
    as [[[]|e] w1]; [|discriminate].
  rewrite Hs. reflexivity.
Qed.

Lemma at_synthesis_reached P session_id audio_bytes w user_text :
  let dialog :=
    build_dialog (session_of w session_id ++ [mkTurn user user_text]) in
  let llm_text := get_response_answer P (S (length (calls w))) dialog in
  (llm_text <- get_response P dialog ;;
   session_append session_id (mkTurn assistant llm_text) ;;;
   ret llm_text) (at_generation w session_id audio_bytes user_text)
  = (Returned llm_text,
     at_synthesis w session_id audio_bytes user_text llm_text).
Proof.
  intros dialog llm_text. unfold at_generation, at_synthesis.
  unfold bind at 1. rewrite get_response_run. cbn [calls].
  rewrite length_app. cbn [length].
  replace (length (calls w) + 1) with (S (length (calls w))) by lia.
  fold dialog llm_text. unfold logged. cbn [chat_sessions calls].
  unfold bind at 1. rewrite session_append_stored. unfold ret.
  rewrite <- !app_assoc. reflexivity.
Qed.

(** Every cycle leaves by one of the four exits. *)
Lemma agent_chat_cases P session_id file_read w :
  let k := length (calls w) in
  let before := session_of w session_id in
  (exists e,
      (file_read = Raised e
       \/ file_read = Returned []
          /\ e = ValueError (lit "No audio bytes received"))
      /\ agent_chat P session_id file_read w
         = (Returned
              (mkChatResponse [] FALLBACK_TEXT (fallback_audio P k) before
                 (Some (mkError (lit "input") (str_of_exn e)))),
            logged w (CallTTS FALLBACK_TEXT None)))
  \/ (exists audio_bytes,
      file_read = Returned audio_bytes /\ audio_bytes <> []
      /\ blank (transcribe_answer P k audio_bytes) = true
      /\ agent_chat P session_id file_read w
         = (Returned
              (mkChatResponse [] FALLBACK_TEXT (fallback_audio P (S k)) before
                 (Some (mkError (lit "stt") (lit "Empty transcription")))),
            mkWorld (chat_sessions w)
              (calls w ++ [CallSTT audio_bytes; CallTTS FALLBACK_TEXT None])))
  \/ (exists audio_bytes,
      let user_text := transcribe_answer P k audio_bytes in
      let dialog := build_dialog (before ++ [mkTurn user user_text]) in
      let session :=
        before ++ [mkTurn user user_text; mkTurn assistant FALLBACK_TEXT] in
      file_read = Returned audio_bytes /\ audio_bytes <> []
      /\ blank user_text = false
      /\ blank (get_response_answer P (S k) dialog) = true
      /\ agent_chat P session_id file_read w
         = (Returned
              (mkChatResponse user_text FALLBACK_TEXT
                 (fallback_audio P (S (S k))) session
                 (Some (mkError (lit "llm") (lit "Empty LLM output")))),
            mkWorld (<[session_id := session]> (chat_sessions w))
              (calls w ++ [CallSTT audio_bytes; CallLLM dialog;
                           CallTTS FALLBACK_TEXT None])))
  \/ (exists audio_bytes,
      let user_text := transcribe_answer P k audio_bytes in
      let dialog := build_dialog (before ++ [mkTurn user user_text]) in
      let llm_text := get_response_answer P (S k) dialog in
      let session :=
        before ++ [mkTurn user user_text; mkTurn assistant llm_text] in
      let indices := range 0 (length llm_text) CHUNK_SIZE in
      let urls := collected P (S (S k)) llm_text indices [] in
      file_read = Returned audio_bytes /\ audio_bytes <> []
      /\ blank user_text = false /\ blank llm_text = false
      /\ agent_chat P session_id file_read w
         = (Returned
              (mkChatResponse user_text llm_text
                 (if negb (truthy urls)
                  then fallback_audio P (S (S k) + length indices) else urls)
                 session None),
            mkWorld (<[session_id := session]> (chat_sessions w))
              (calls w ++ [CallSTT audio_bytes; CallLLM dialog]
                 ++ map (fun i => CallTTS (chunk_at llm_text i) None) indices
                 ++ (if negb (truthy urls)
                     then [CallTTS FALLBACK_TEXT None] else [])))).
Proof.
  intros k before.
  destruct file_read as [[|b bs]|e].
  - left. eexists. split; [right; split; reflexivity|].
    apply agent_chat_input. right. split; reflexivity.
  - assert (Ha : b :: bs <> []) by discriminate.
    destruct (blank (transcribe_answer P k (b :: bs))) eqn:Hb.
    + right. left. exists (b :: bs). repeat split; try assumption.
      apply agent_chat_stt; assumption.
    + destruct (blank (get_response_answer P (S k)
                         (build_dialog
                            (before ++ [mkTurn user
                                          (transcribe_answer P k (b :: bs))]))))
        eqn:Hl.
      * right. right. left. exists (b :: bs). cbn zeta.
        repeat split; try assumption.
        apply agent_chat_llm; assumption.
      * right. right. right. exists (b :: bs). cbn zeta.
        repeat split; try assumption.
        apply agent_chat_success; assumption.
  - left. exists e. split; [left; reflexivity|].
    apply agent_chat_input. left. reflexivity.
Qed.

(** The code's dialog is the one the words describe, as soon as the session
    holds a turn. *)
Lemma build_dialog_by_lines (session : list Turn) :
  session <> [] -> build_dialog session = dialog_by_lines session.
Proof.
  intros Hne. unfold build_dialog, dialog_by_lines.
  set (nl := lit (String "010" EmptyString)).
  assert (H : join nl (map dialog_line session) ++ nl
              = concat (map (fun m =>
                               (match role m with
                                | user => lit "User: "
                                | assistant => lit "AI: "
                                end) ++ content m ++ nl) session)).
  { induction session as [|m [|m' rest] IH]; [congruence| |].
    - cbn [map join concat]. unfold dialog_line.
      rewrite app_nil_r, <- app_assoc. reflexivity.
    - specialize (IH ltac:(discriminate)).
      change (map dialog_line (m :: m' :: rest))
        with (dialog_line m :: map dialog_line (m' :: rest)).
      change (join nl (dialog_line m :: map dialog_line (m' :: rest)))
        with (dialog_line m ++ nl ++ join nl (map dialog_line (m' :: rest))).
      rewrite <- !app_assoc, IH. cbn [map concat]. unfold dialog_line.
      rewrite <- !app_assoc. reflexivity. }
  rewrite <- H, <- app_assoc. reflexivity.
Qed.

(** Reading an adapter's result off a run. *)
Lemma transcribe_returned P audio_bytes w t :
  fst (transcribe P audio_bytes w) = Returned t ->
  t = transcribe_answer P (length (calls w)) audio_bytes.
Proof. rewrite transcribe_run. cbn [fst]. congruence. Qed.

Lemma get_response_returned P dialog w t :
  fst (get_response P dialog w) = Returned t ->
  t = get_response_answer P (length (calls w)) dialog.
Proof. rewrite get_response_run. cbn [fst]. congruence. Qed.

(** ** The exits, as the cycle's caller sees them *)

(** C6: a cycle whose upload is empty or cannot be read returns a response
    with [error.stage == "input"], an empty transcription, the fallback text
    as reply and, as audio, the best-effort fallback synthesis: the cycle
    makes one call of [synthesize], on the fallback text, in the state it
    started in, and the audio list is the single reference that call
    returned, or empty when it returned none (or an empty one); this is what
    [try_fallback_tts] gives.  The session map is left as it was, and the
    history returned is the session's turn list from before the cycle. *)
Theorem input_failure_exit P session_id file_read w :
  file_read = Returned [] \/ (exists e, file_read = Raised e) ->
  exists r w' audio_url,
    agent_chat P session_id file_read w = (Returned r, w')
    /\ error_stage r = Some (lit "input")
    /\ transcription r = []
    /\ llm_response r = FALLBACK_TEXT
    /\ fst (try_fallback_tts P w) = Returned (audioFiles r)
    /\ fst (synthesize P FALLBACK_TEXT None w) = Returned audio_url
    /\ audioFiles r
       = match audio_url with
         | Some url => if truthy url then [url] else []
         | None => []
         end
    /\ calls w' = calls w ++ [CallTTS FALLBACK_TEXT None]
    /\ chat_sessions w' = chat_sessions w
    /\ chat_history r = session_of w session_id.
Proof.
  intros H.
  assert (exists e, file_read = Raised e
                    \/ file_read = Returned []
                       /\ e = ValueError (lit "No audio bytes received"))
    as [e He].
  { destruct H as [->|[e ->]]; eexists; [right; split; reflexivity|left; reflexivity]. }
  do 3 eexists. split; [apply (agent_chat_input P session_id w _ e He)|].
  rewrite try_fallback_tts_run, synthesize_run. repeat split.
Qed.

Lemma input_failure_exit_witness :
  (@Returned bytes [] = Returned [] \/ (exists e, @Returned bytes [] = Raised e))
  /\ exists r w' audio_url,
       agent_chat P_ok sid0 (Returned []) w0 = (Returned r, w')
       /\ error_stage r = Some (lit "input")
       /\ transcription r = []
       /\ llm_response r = FALLBACK_TEXT
       /\ fst (try_fallback_tts P_ok w0) = Returned (audioFiles r)
       /\ fst (synthesize P_ok FALLBACK_TEXT None w0) = Returned audio_url
       /\ audioFiles r
          = match audio_url with
            | Some url => if truthy url then [url] else []
            | None => []
            end
       /\ calls w' = calls w0 ++ [CallTTS FALLBACK_TEXT None]
       /\ chat_sessions w' = chat_sessions w0
       /\ chat_history r = session_of w0 sid0.
Proof.
  split; [left; reflexivity|].
  apply (input_failure_exit P_ok sid0 (Returned []) w0). left. reflexivity.
Defined.

(** The input exit, run: with a working synthesiser the audio list holds the
    reference of the fallback synthesis; with none it is empty. *)
Example input_exit_audio :
  (audioFiles <$> (match fst (agent_chat P_ok sid0 (Returned []) w0) with
                   | Returned r => Some r
                   | Raised _ => None
                   end))
  = Some [lit "https://murf/" ++ [0%N]]
  /\ (audioFiles <$> (match fst (agent_chat P_no_voice sid0 (Returned []) w0) with
                      | Returned r => Some r
                      | Raised _ => None
                      end))
     = Some [].
Proof. split; reflexivity. Qed.

(** C3: when the upload is fine and the transcription adapter returns empty
    or whitespace-only text, the response has [error.stage == "stt"] and an
    empty transcription, no turn is appended (the session map is left as it
    was), and the history returned is the turn list from before the cycle. *)
Theorem blank_transcription_exit P session_id audio_bytes w user_text :
  audio_bytes <> [] ->
  fst (transcribe P audio_bytes w) = Returned user_text ->
  blank user_text = true ->
  exists r w',
    agent_chat P session_id (Returned audio_bytes) w = (Returned r, w')
    /\ error_stage r = Some (lit "stt")
    /\ transcription r = []
    /\ chat_sessions w' = chat_sessions w
    /\ session_of w' session_id = session_of w session_id
    /\ chat_history r = session_of w session_id.
Proof.
  intros Ha Ht Hb. apply transcribe_returned in Ht. subst user_text.
  do 2 eexists. split; [apply (agent_chat_stt P session_id w _ Ha Hb)|].
  repeat split.
Qed.

Lemma blank_transcription_exit_witness :
  audio0 <> []
  /\ fst (transcribe P_silence audio0 w0) = Returned (lit "   ")
  /\ blank (lit "   ") = true
  /\ exists r w',
       agent_chat P_silence sid0 (Returned audio0) w0 = (Returned r, w')
       /\ error_stage r = Some (lit "stt")
       /\ transcription r = []
       /\ chat_sessions w' = chat_sessions w0
       /\ session_of w' sid0 = session_of w0 sid0
       /\ chat_history r = session_of w0 sid0.
Proof.
  assert (Ha : audio0 <> []) by discriminate.
  assert (Ht : fst (transcribe P_silence audio0 w0) = Returned (lit "   "))
    by reflexivity.
  assert (Hb : blank (lit "   ") = true) by reflexivity.
  repeat (split; [assumption|]).
  exact (blank_transcription_exit P_silence sid0 audio0 w0 (lit "   ") Ha Ht Hb).
Defined.

(** C1: through the success exit (the transcription and the generated reply
    are both not blank) the session's turn list grows by exactly two turns,
    first the user turn carrying the transcription, then the assistant turn
    carrying the reply; the response carries both texts, the grown list as
    history, and no error. *)
Theorem success_exit P session_id audio_bytes w user_text llm_text :
  audio_bytes <> [] ->
  fst (transcribe P audio_bytes w) = Returned user_text ->
  blank user_text = false ->
  fst (get_response P
         (build_dialog (session_of w session_id ++ [mkTurn user user_text]))
         (at_generation w session_id audio_bytes user_text))
  = Returned llm_text ->
  blank llm_text = false ->
  exists r w',
    agent_chat P session_id (Returned audio_bytes) w = (Returned r, w')
    /\ session_of w' session_id
       = session_of w session_id
           ++ [mkTurn user user_text; mkTurn assistant llm_text]
    /\ length (session_of w' session_id)
       = length (session_of w session_id) + 2
    /\ transcription r = user_text
    /\ llm_response r = llm_text
    /\ chat_history r = session_of w' session_id
    /\ error r = None.
Proof.
  intros Ha Ht Hb Hg Hl.
  apply transcribe_returned in Ht. apply get_response_returned in Hg.
  unfold at_generation in Hg. cbn [calls] in Hg.
  rewrite length_app in Hg. cbn [length] in Hg.
  replace (length (calls w) + 1) with (S (length (calls w))) in Hg by lia.
  subst user_text llm_text.
  do 2 eexists. split; [apply (agent_chat_success P session_id w _ Ha Hb Hl)|].
  rewrite !session_of_stored, length_app. cbn [length chat_history].
  repeat split.
Qed.

Lemma success_exit_witness :
  audio0 <> []
  /\ fst (transcribe P_ok audio0 w0) = Returned hello
  /\ blank hello = false
  /\ fst (get_response P_ok
            (build_dialog (session_of w0 sid0 ++ [mkTurn user hello]))
            (at_generation w0 sid0 audio0 hello))
     = Returned (lit "hi there")
  /\ blank (lit "hi there") = false
  /\ exists r w',
       agent_chat P_ok sid0 (Returned audio0) w0 = (Returned r, w')
       /\ session_of w' sid0
          = session_of w0 sid0
              ++ [mkTurn user hello; mkTurn assistant (lit "hi there")]
       /\ length (session_of w' sid0) = length (session_of w0 sid0) + 2
       /\ transcription r = hello
       /\ llm_response r = lit "hi there"
       /\ chat_history r = session_of w' sid0
       /\ error r = None.
Proof.
  assert (Ha : audio0 <> []) by discriminate.
  assert (Ht : fst (transcribe P_ok audio0 w0) = Returned hello) by reflexivity.
  assert (Hb : blank hello = false) by reflexivity.
  assert (Hg : fst (get_response P_ok
                      (build_dialog (session_of w0 sid0 ++ [mkTurn user hello]))
                      (at_generation w0 sid0 audio0 hello))
               = Returned (lit "hi there")) by reflexivity.
  assert (Hl : blank (lit "hi there") = false) by reflexivity.
  repeat (split; [assumption|]).
  exact (success_exit P_ok sid0 audio0 w0 hello (lit "hi there") Ha Ht Hb Hg Hl).
Defined.

(** C2, as the code has it: when the transcription is not blank and the
    generator returns blank text, the session's turn list grows by exactly
    two turns relative to the start of the cycle: the user turn stored before
    the generator was called, and then the fallback assistant turn, which is
    one more than the list the generator was called with.  The response has
    [error.stage == "llm"], the fallback text as reply and the grown list as
    history. *)
Theorem blank_generation_exit P session_id audio_bytes w user_text llm_text :
  audio_bytes <> [] ->
  fst (transcribe P audio_bytes w) = Returned user_text ->
  blank user_text = false ->
  fst (get_response P
         (build_dialog (session_of w session_id ++ [mkTurn user user_text]))
         (at_generation w session_id audio_bytes user_text))
  = Returned llm_text ->
  blank llm_text = true ->
  exists r w',
    agent_chat P session_id (Returned audio_bytes) w = (Returned r, w')
    /\ session_of w' session_id
       = session_of w session_id
           ++ [mkTurn user user_text; mkTurn assistant FALLBACK_TEXT]
    /\ length (session_of w' session_id)
       = length (session_of w session_id) + 2
    /\ length (session_of w' session_id)
       = length (session_of (at_generation w session_id audio_bytes user_text)
                   session_id) + 1
    /\ error_stage r = Some (lit "llm")
    /\ transcription r = user_text
    /\ llm_response r = FALLBACK_TEXT
    /\ chat_history r = session_of w' session_id.
Proof.
  intros Ha Ht Hb Hg Hl.
  apply transcribe_returned in Ht. apply get_response_returned in Hg.
  unfold at_generation in Hg. cbn [calls] in Hg.
  rewrite length_app in Hg. cbn [length] in Hg.
  replace (length (calls w) + 1) with (S (length (calls w))) in Hg by lia.
  subst user_text llm_text.
  do 2 eexists. split; [apply (agent_chat_llm P session_id w _ Ha Hb Hl)|].
  unfold at_generation.
  rewrite !session_of_stored, !length_app. cbn [length chat_history].
  repeat split. lia.
Qed.

Lemma blank_generation_exit_witness :
  audio0 <> []
  /\ fst (transcribe P_mute audio0 w0) = Returned hello
  /\ blank hello = false
  /\ fst (get_response P_mute
            (build_dialog (session_of w0 sid0 ++ [mkTurn user hello]))
            (at_generation w0 sid0 audio0 hello))
     = Returned []
  /\ blank [] = true
  /\ exists r w',
       agent_chat P_mute sid0 (Returned audio0) w0 = (Returned r, w')
       /\ session_of w' sid0
          = session_of w0 sid0
              ++ [mkTurn user hello; mkTurn assistant FALLBACK_TEXT]
       /\ length (session_of w' sid0) = length (session_of w0 sid0) + 2
       /\ length (session_of w' sid0)
          = length (session_of (at_generation w0 sid0 audio0 hello) sid0) + 1
       /\ error_stage r = Some (lit "llm")
       /\ transcription r = hello
       /\ llm_response r = FALLBACK_TEXT
       /\ chat_history r = session_of w' sid0.
Proof.
  assert (Ha : audio0 <> []) by discriminate.
  assert (Ht : fst (transcribe P_mute audio0 w0) = Returned hello)
    by reflexivity.
  assert (Hb : blank hello = false) by reflexivity.
  assert (Hg : fst (get_response P_mute
                      (build_dialog (session_of w0 sid0 ++ [mkTurn user hello]))
                      (at_generation w0 sid0 audio0 hello))
               = Returned []) by reflexivity.
  assert (Hl : blank [] = true) by reflexivity.
  repeat (split; [assumption|]).
  exact (blank_generation_exit P_mute sid0 audio0 w0 hello [] Ha Ht Hb Hg Hl).
Defined.

(** C2 as stated fails: on a fresh session, with the transcription [hello]
    and a generator that returns the empty text, the cycle leaves by the
    [llm] exit with two turns stored, where the session held none before. *)
Lemma blank_generation_grows_by_two :
  exists r w',
    agent_chat P_mute sid0 (Returned audio0) w0 = (Returned r, w')
    /\ fst (transcribe P_mute audio0 w0) = Returned hello
    /\ blank hello = false
    /\ fst (get_response P_mute (build_dialog [mkTurn user hello])
              (at_generation w0 sid0 audio0 hello)) = Returned []
    /\ error_stage r = Some (lit "llm")
    /\ session_of w0 sid0 = []
    /\ session_of w' sid0
       = [mkTurn user hello; mkTurn assistant FALLBACK_TEXT]
    /\ length (session_of w' sid0) <> length (session_of w0 sid0) + 1.
Proof.
  assert (Ha : audio0 <> []) by discriminate.
  pose proof (agent_chat_llm P_mute sid0 w0 audio0 Ha eq_refl eq_refl) as H.
  do 2 eexists. split; [exact H|].
  rewrite session_of_stored.
  repeat split; try reflexivity. cbn. discriminate.
Qed.

(** ** Chunked synthesis *)

Lemma CHUNK_SIZE_pos : 0 < CHUNK_SIZE.
Proof. unfold CHUNK_SIZE. lia. Qed.


(** C5: in a cycle that reaches the synthesis loop, if the loop collects no
    reference (every chunk's call gave [None] or an empty reference), the
    audio list of the response is what [try_fallback_tts] gives in the state
    the loop ended in: the single reference returned by one more call of
    [synthesize] on the fallback text, or the empty list when that call gives
    no reference either.  The response has no error. *)
Theorem all_chunks_fail_exit P session_id audio_bytes w user_text llm_text :
  audio_bytes <> [] ->
  fst (transcribe P audio_bytes w) = Returned user_text ->
  blank user_text = false ->
  fst (get_response P
         (build_dialog (session_of w session_id ++ [mkTurn user user_text]))
         (at_generation w session_id audio_bytes user_text))
  = Returned llm_text ->
  blank llm_text = false ->
  fst (chunked_synthesis P llm_text
         (at_synthesis w session_id audio_bytes user_text llm_text))
  = Returned [] ->
  exists r w' audio_url,
    agent_chat P session_id (Returned audio_bytes) w = (Returned r, w')
    /\ error r = None
    /\ llm_response r = llm_text
    /\ fst (try_fallback_tts P
              (snd (chunked_synthesis P llm_text
                      (at_synthesis w session_id audio_bytes user_text llm_text))))
       = Returned (audioFiles r)
    /\ fst (synthesize P FALLBACK_TEXT None
              (snd (chunked_synthesis P llm_text
                      (at_synthesis w session_id audio_bytes user_text llm_text))))
       = Returned audio_url
    /\ audioFiles r
       = match audio_url with
         | Some url => if truthy url then [url] else []
         | None => []
         end.
Proof.
  intros Ha Ht Hb Hg Hl Hc.
  apply transcribe_returned in Ht. apply get_response_returned in Hg.
  unfold at_generation in Hg. cbn [calls] in Hg.
  rewrite length_app in Hg. cbn [length] in Hg.
  replace (length (calls w) + 1) with (S (length (calls w))) in Hg by lia.
  subst user_text llm_text.
  unfold chunked_synthesis in *. rewrite tts_loop_run in Hc |- *.
  unfold at_synthesis in *. cbn [fst snd calls chat_sessions] in Hc |- *.
  rewrite length_app in Hc. cbn [length] in Hc.
  replace (length (calls w) + 2) with (S (S (length (calls w)))) in Hc by lia.
  injection Hc as Hc.
  rewrite try_fallback_tts_run, synthesize_run. cbn [fst calls].
  rewrite (agent_chat_success P session_id w _ Ha Hb Hl). rewrite Hc.
  cbn [truthy negb].
  rewrite !length_app, length_map. cbn [length].
  replace (length (calls w) + 2) with (S (S (length (calls w)))) by lia.
  do 3 eexists. split; [reflexivity|]. repeat split.
Qed.

Lemma all_chunks_fail_exit_witness :
  audio0 <> []
  /\ fst (transcribe P_flaky audio0 w0) = Returned hello
  /\ blank hello = false
  /\ fst (get_response P_flaky
            (build_dialog (session_of w0 sid0 ++ [mkTurn user hello]))
            (at_generation w0 sid0 audio0 hello))
     = Returned (lit "hi there")
  /\ blank (lit "hi there") = false
  /\ fst (chunked_synthesis P_flaky (lit "hi there")
            (at_synthesis w0 sid0 audio0 hello (lit "hi there")))
     = Returned []
  /\ exists r w' audio_url,
       agent_chat P_flaky sid0 (Returned audio0) w0 = (Returned r, w')
       /\ error r = None
       /\ llm_response r = lit "hi there"
       /\ fst (try_fallback_tts P_flaky
                 (snd (chunked_synthesis P_flaky (lit "hi there")
                         (at_synthesis w0 sid0 audio0 hello (lit "hi there")))))
          = Returned (audioFiles r)
       /\ fst (synthesize P_flaky FALLBACK_TEXT None
                 (snd (chunked_synthesis P_flaky (lit "hi there")
                         (at_synthesis w0 sid0 audio0 hello (lit "hi there")))))
          = Returned audio_url
       /\ audioFiles r
          = match audio_url with
            | Some url => if truthy url then [url] else []
            | None => []
            end.
Proof.
  assert (Ha : audio0 <> []) by discriminate.
  assert (Ht : fst (transcribe P_flaky audio0 w0) = Returned hello)
    by reflexivity.
  assert (Hb : blank hello = false) by reflexivity.
  assert (Hg : fst (get_response P_flaky
                      (build_dialog (session_of w0 sid0 ++ [mkTurn user hello]))
                      (at_generation w0 sid0 audio0 hello))
               = Returned (lit "hi there")) by reflexivity.
  assert (Hl : blank (lit "hi there") = false) by reflexivity.
  assert (Hc : fst (chunked_synthesis P_flaky (lit "hi there")
                      (at_synthesis w0 sid0 audio0 hello (lit "hi there")))
               = Returned []) by reflexivity.
  repeat (split; [assumption|]).
  exact (all_chunks_fail_exit P_flaky sid0 audio0 w0 hello (lit "hi there")
           Ha Ht Hb Hg Hl Hc).
Defined.

(** The two ways the failed loop ends: with the synthesiser back, one
    fallback reference; with no synthesiser at all, no audio; no error is
    reported in either. *)
Example fallback_audio_after_failed_chunks :
  (let r := fst (agent_chat P_flaky sid0 (Returned audio0) w0) in
   (audioFiles <$> (match r with Returned x => Some x | Raised _ => None end))
   = Some [lit "https://murf/" ++ [3%N]])
  /\ (let r := fst (agent_chat P_no_voice sid0 (Returned audio0) w0) in
      match r with
      | Returned x => audioFiles x = [] /\ error x = None
      | Raised _ => False
      end).
Proof. split; [reflexivity|]. vm_compute. split; reflexivity. Qed.

(** Scenario D, run: a reply of 7000 characters is synthesised in three
    calls of 3000, 3000 and 1000 characters, after the transcription call
    and the generator call. *)
Example seven_thousand_characters :
  map call_size (calls (snd (agent_chat P_long sid0 (Returned audio0) w0)))
  = [2; 15; 3000; 3000; 1000].
Proof. vm_compute. reflexivity. Qed.

(** ** The synthesis calls of a whole cycle *)





(** ** The dialog handed to the generator *)

(** Past the transcription, a cycle calls the generator exactly once, second
    in the cycle's calls, with the dialog built from the stored turns and the
    new user turn; the session then holds that user turn and the reply
    returned to the caller. *)
Lemma generation_call P session_id audio_bytes w user_text :
  audio_bytes <> [] ->
  fst (transcribe P audio_bytes w) = Returned user_text ->
  blank user_text = false ->
  exists r w',
    agent_chat P session_id (Returned audio_bytes) w = (Returned r, w')
    /\ (exists rest,
           calls w'
           = calls w
               ++ [CallSTT audio_bytes;
                   CallLLM (build_dialog
                              (session_of w session_id
                                 ++ [mkTurn user user_text]))]
               ++ rest
           /\ Forall is_tts_call rest)
    /\ session_of w' session_id
       = session_of w session_id
           ++ [mkTurn user user_text; mkTurn assistant (llm_response r)].
Proof.
  intros Ha Ht Hb. apply transcribe_returned in Ht. subst user_text.
  destruct (blank (get_response_answer P (S (length (calls w)))
                     (build_dialog
                        (session_of w session_id
                           ++ [mkTurn user
                                 (transcribe_answer P (length (calls w))
                                    audio_bytes)])))) eqn:Hl.
  - do 2 eexists. split; [apply (agent_chat_llm P session_id w _ Ha Hb Hl)|].
    rewrite session_of_stored. cbn [calls llm_response]. split; [|reflexivity].
    exists [CallTTS FALLBACK_TEXT None]. split; [reflexivity|].
    repeat constructor.
  - do 2 eexists.
    split; [apply (agent_chat_success P session_id w _ Ha Hb Hl)|].
    rewrite session_of_stored. cbn [calls llm_response]. split; [|reflexivity].
    eexists. split; [reflexivity|].
    apply Forall_app. split.
    + apply Forall_map, Forall_forall. intros; exact I.
    + destruct (negb _); repeat constructor.
Qed.

Lemma tts_call_lookup rest i dialog :
  Forall is_tts_call rest -> rest !! i = Some (CallLLM dialog) -> False.
Proof.
  intros HF Hi. rewrite Forall_lookup in HF. exact (HF _ _ Hi).
Qed.

(** C7: the text handed to the generator is, for the turns stored in the
    session followed by the new user turn, one line per turn in session
    order, [User: ] or [AI: ] and the content, each ended by a newline, and
    then the cue [AI:]; it is the only generator call of the cycle.  A second
    cycle on the same session is handed both turns of the first cycle, in
    their order, before its own user turn. *)
Theorem dialog_passed_to_generator P session_id audio_bytes w user_text :
  audio_bytes <> [] ->
  fst (transcribe P audio_bytes w) = Returned user_text ->
  blank user_text = false ->
  exists r w',
    agent_chat P session_id (Returned audio_bytes) w = (Returned r, w')
    /\ calls w' !! S (length (calls w))
       = Some (CallLLM (dialog_by_lines
                          (session_of w session_id ++ [mkTurn user user_text])))
    /\ (forall i dialog,
           length (calls w) <= i ->
           calls w' !! i = Some (CallLLM dialog) ->
           i = S (length (calls w)))
    /\ forall audio_bytes2 user_text2,
         audio_bytes2 <> [] ->
         fst (transcribe P audio_bytes2 w') = Returned user_text2 ->
         blank user_text2 = false ->
         exists r2 w'',
           agent_chat P session_id (Returned audio_bytes2) w' = (Returned r2, w'')
           /\ calls w'' !! S (length (calls w'))
              = Some (CallLLM
                        (dialog_by_lines
                           (session_of w session_id
                              ++ [mkTurn user user_text;
                                  mkTurn assistant (llm_response r);
                                  mkTurn user user_text2]))).
Proof.
  intros Ha Ht Hb.
  destruct (generation_call P session_id audio_bytes w user_text Ha Ht Hb)
    as (r & w' & Hrun & (rest & Hcalls & Hrest) & Hsession).
  exists r, w'. split; [exact Hrun|]. split; [|split].
  - rewrite Hcalls, lookup_app_r by lia.
    replace (S (length (calls w)) - length (calls w)) with 1 by lia.
    cbn [app lookup list_lookup].
    rewrite build_dialog_by_lines; [reflexivity|].
    destruct (session_of w session_id); discriminate.
  - intros i dialog Hi Hlook. rewrite Hcalls, lookup_app_r in Hlook by lia.
    destruct (i - length (calls w)) as [|[|j]] eqn:E; [discriminate|lia|].
    exfalso. exact (tts_call_lookup rest j dialog Hrest Hlook).
  - intros audio_bytes2 user_text2 Ha2 Ht2 Hb2.
    destruct (generation_call P session_id audio_bytes2 w' user_text2
                Ha2 Ht2 Hb2)
      as (r2 & w'' & Hrun2 & (rest2 & Hcalls2 & _) & _).
    exists r2, w''. split; [exact Hrun2|].
    rewrite Hcalls2, lookup_app_r by lia.
    replace (S (length (calls w')) - length (calls w')) with 1 by lia.
    cbn [app lookup list_lookup].
    rewrite Hsession, <- app_assoc. cbn [app].
    rewrite build_dialog_by_lines; [reflexivity|].
    destruct (session_of w session_id); discriminate.
Qed.

Lemma dialog_passed_to_generator_witness :
  audio0 <> []
  /\ fst (transcribe P_ok audio0 w0) = Returned hello
  /\ blank hello = false
  /\ exists r w',
       agent_chat P_ok sid0 (Returned audio0) w0 = (Returned r, w')
       /\ calls w' !! S (length (calls w0))
          = Some (CallLLM (dialog_by_lines
                             (session_of w0 sid0 ++ [mkTurn user hello])))
       /\ (forall i dialog,
              length (calls w0) <= i ->
              calls w' !! i = Some (CallLLM dialog) ->
              i = S (length (calls w0)))
       /\ forall audio_bytes2 user_text2,
            audio_bytes2 <> [] ->
            fst (transcribe P_ok audio_bytes2 w') = Returned user_text2 ->
            blank user_text2 = false ->
            exists r2 w'',
              agent_chat P_ok sid0 (Returned audio_bytes2) w' = (Returned r2, w'')
              /\ calls w'' !! S (length (calls w'))
                 = Some (CallLLM
                           (dialog_by_lines
                              (session_of w0 sid0
                                 ++ [mkTurn user hello;
                                     mkTurn assistant (llm_response r);
                                     mkTurn user user_text2]))).
Proof.
  assert (Ha : audio0 <> []) by discriminate.
  assert (Ht : fst (transcribe P_ok audio0 w0) = Returned hello) by reflexivity.
  assert (Hb : blank hello = false) by reflexivity.
  repeat (split; [assumption|]).
  exact (dialog_passed_to_generator P_ok sid0 audio0 w0 hello Ha Ht Hb).
Defined.

(** Scenario E, run: the generator call of a second cycle on the same
    session. *)
Example second_cycle_dialog :
  let w1 := snd (agent_chat P_ok sid0 (Returned audio0) w0) in
  let w2 := snd (agent_chat P_ok sid0 (Returned audio0) w1) in
  calls w2 !! 4
  = Some (CallLLM
            (lit "User: hello" ++ [10%N] ++ lit "AI: hi there" ++ [10%N]
               ++ lit "User: hello" ++ [10%N] ++ lit "AI:")).
Proof. vm_compute. reflexivity. Qed.

(** ** The adapters never raise *)

(** C8: whatever the provider does, each adapter call returns to its caller:
    [transcribe] and [get_response] return a text, which is empty when the
    provider raised or gave no text; [synthesize] returns a reference or
    [None], and [None] when the provider raised; an adapter whose client was
    built without a credential returns the empty text, respectively [None]. *)
Theorem adapters_never_raise P w (audio_bytes : bytes) (dialog text : str)
    (voice_id : option str) :
  (exists s w',
      transcribe P audio_bytes w = (Returned s, w')
      /\ (forall e,
             aai_transcribe P (length (calls w)) audio_bytes = Raised e ->
             s = [])
      /\ (aai_transcribe P (length (calls w)) audio_bytes = Returned None ->
          s = []))
  /\ (exists s w',
         get_response P dialog w = (Returned s, w')
         /\ (genai_client P = None -> s = [])
         /\ (forall client e,
                genai_client P = Some client ->
                client (length (calls w)) dialog = Raised e ->
                s = [])
         /\ (forall client,
                genai_client P = Some client ->
                client (length (calls w)) dialog = Returned None ->
                s = []))
  /\ (exists o w',
         synthesize P text voice_id w = (Returned o, w')
         /\ (murf_client P = None -> o = None)
         /\ (forall client e,
                murf_client P = Some client ->
                client (length (calls w)) text (py_or voice_id default_voice)
                = Raised e ->
                o = None)
         /\ (forall client url,
                murf_client P = Some client ->
                client (length (calls w)) text (py_or voice_id default_voice)
                = Returned url ->
                o = url)).
Proof.
  split; [|split].
  - do 2 eexists. split; [apply transcribe_run|].
    unfold transcribe_answer. split.
    + intros e ->. reflexivity.
    + intros ->. reflexivity.
  - do 2 eexists. split; [apply get_response_run|].
    unfold get_response_answer. split; [|split].
    + intros ->. reflexivity.
    + intros client e -> ->. reflexivity.
    + intros client -> ->. reflexivity.
  - do 2 eexists. split; [apply synthesize_run|].
    unfold synthesize_answer. split; [|split].
    + intros ->. reflexivity.
    + intros client e -> ->. reflexivity.
    + intros client url -> ->. reflexivity.
Qed.

(** ** What a cycle does to the session map *)

(** A cycle returns, and either leaves the map alone (the [input] and [stt]
    exits) or stores under its session the old turns followed by the user
    turn and an assistant turn. *)
Lemma cycle_effect P session_id file_read w :
  exists r w',
    agent_chat P session_id file_read w = (Returned r, w')
    /\ ((chat_sessions w' = chat_sessions w
         /\ chat_history r = session_of w session_id
         /\ (error_stage r = Some (lit "input")
             \/ error_stage r = Some (lit "stt")))
        \/ (exists audio_bytes user_text llm_text,
               file_read = Returned audio_bytes
               /\ fst (transcribe P audio_bytes w) = Returned user_text
               /\ blank user_text = false
               /\ blank llm_text = false
               /\ (llm_text = FALLBACK_TEXT /\ error_stage r = Some (lit "llm")
                   \/ fst (get_response P
                             (build_dialog
                                (session_of w session_id
                                   ++ [mkTurn user user_text]))
                             (at_generation w session_id audio_bytes user_text))
                      = Returned llm_text
                      /\ error_stage r = None)
               /\ chat_sessions w'
                  = <[session_id := session_of w session_id
                                      ++ [mkTurn user user_text;
                                          mkTurn assistant llm_text]]>
                      (chat_sessions w))).
Proof.
  destruct (agent_chat_cases P session_id file_read w)
    as [(e & _ & Hrun)
       |[(a & -> & _ & _ & Hrun)
        |[(a & -> & _ & Hb & Hl & Hrun)
         |(a & -> & _ & Hb & Hl & Hrun)]]];
    do 2 eexists; (split; [exact Hrun|]).
  - left. repeat split. left. reflexivity.
  - left. repeat split. right. reflexivity.
  - right. exists a. do 2 eexists.
    split; [reflexivity|]. rewrite transcribe_run.
    split; [reflexivity|]. split; [exact Hb|].
    split; [exact FALLBACK_TEXT_nonblank|].
    split; [left; split; reflexivity|reflexivity].
  - right. exists a. do 2 eexists.
    split; [reflexivity|]. rewrite transcribe_run.
    split; [reflexivity|]. split; [exact Hb|].
    split; [exact Hl|].
    split; [right|reflexivity].
    rewrite get_response_run. unfold at_generation. cbn [fst calls].
    rewrite length_app. cbn [length].
    replace (length (calls w) + 1) with (S (length (calls w))) by lia.
    split; reflexivity.
Qed.

(** C9: in every state the process can reach, every turn stored in any
    session has content that is not blank.  A cycle only appends to its own
    session, and what it appends comes from a transcription that is not
    blank: a user turn carries that transcription, an assistant turn either
    a generated reply that is not blank or the fallback text, which is
    stored although it reports a failure. *)
Theorem stored_contents_nonblank P w :
  reachable P w ->
  contents_nonblank w
  /\ forall session_id file_read,
       exists new,
         session_of (snd (agent_chat P session_id file_read w)) session_id
         = session_of w session_id ++ new
         /\ Forall (appended_by P w session_id file_read) new.
Proof.
  intros Hreach. split.
  - induction Hreach as [|w session_id file_read Hreach IH].
    + intros key session H. cbn [chat_sessions] in H.
      rewrite lookup_empty in H. discriminate.
    + destruct (cycle_effect P session_id file_read w)
        as (r & w' & Hrun & [(Hsame & _)|(a & t & l & _ & _ & Hb & Hl & _ & Hmap)]);
        rewrite Hrun; cbn [snd]; intros key session H.
      * rewrite Hsame in H. exact (IH key session H).
      * rewrite Hmap in H. apply lookup_insert_Some in H.
        destruct H as [[_ <-]|[_ H]]; [|exact (IH key session H)].
        apply Forall_app. split.
        -- unfold session_of.
           destruct (chat_sessions w !! session_id) as [old|] eqn:E;
             [exact (IH _ _ E)|constructor].
        -- repeat constructor; assumption.
  - intros session_id file_read.
    destruct (cycle_effect P session_id file_read w)
      as (r & w' & Hrun
          & [(Hsame & _)|(a & t & l & Hf & Ht & Hb & Hl & Hfrom & Hmap)]);
      rewrite Hrun; cbn [snd].
    + exists []. rewrite app_nil_r. unfold session_of. rewrite Hsame.
      split; [reflexivity|constructor].
    + exists [mkTurn user t; mkTurn assistant l].
      unfold session_of at 1. rewrite Hmap, lookup_insert_eq. cbn [default].
      split; [reflexivity|].
      repeat constructor; exists a, t; cbn [role content];
        repeat (split; [assumption|]); [reflexivity|].
      destruct Hfrom as [[-> _]|[Hg _]]; [left; reflexivity|right; split; assumption].
Qed.

Lemma stored_contents_nonblank_witness :
  reachable P_ok (snd (agent_chat P_ok sid0 (Returned audio0) (mkWorld ∅ [])))
  /\ contents_nonblank
       (snd (agent_chat P_ok sid0 (Returned audio0) (mkWorld ∅ [])))
  /\ forall session_id file_read,
       exists new,
         session_of
           (snd (agent_chat P_ok session_id file_read
                   (snd (agent_chat P_ok sid0 (Returned audio0) (mkWorld ∅ [])))))
           session_id
         = session_of
             (snd (agent_chat P_ok sid0 (Returned audio0) (mkWorld ∅ [])))
             session_id ++ new
         /\ Forall
              (appended_by P_ok
                 (snd (agent_chat P_ok sid0 (Returned audio0) (mkWorld ∅ [])))
                 session_id file_read) new.
Proof.
  assert (Hreach : reachable P_ok
                     (snd (agent_chat P_ok sid0 (Returned audio0) (mkWorld ∅ []))))
    by (apply reachable_cycle, reachable_start).
  split; [exact Hreach|].
  exact (stored_contents_nonblank P_ok _ Hreach).
Defined.

(** C10: a cycle that leaves by the [input] or the [stt] exit leaves the
    session map as it was; when its session identifier has no entry, none is
    created and the history returned is the empty list.  Whenever a cycle
    does create an entry, it is the entry of its own session identifier, the
    transcription was not blank, and the entry starts with the user turn
    carrying it. *)
Theorem early_exit_creates_no_session P session_id file_read w :
  exists r w',
    agent_chat P session_id file_read w = (Returned r, w')
    /\ (error_stage r = Some (lit "input") \/ error_stage r = Some (lit "stt") ->
        chat_sessions w' = chat_sessions w
        /\ (chat_sessions w !! session_id = None ->
            chat_sessions w' !! session_id = None /\ chat_history r = []))
    /\ (forall key,
           chat_sessions w !! key = None ->
           chat_sessions w' !! key <> None ->
           key = session_id
           /\ exists audio_bytes user_text llm_text,
                file_read = Returned audio_bytes
                /\ fst (transcribe P audio_bytes w) = Returned user_text
                /\ blank user_text = false
                /\ chat_sessions w' !! key
                   = Some [mkTurn user user_text; mkTurn assistant llm_text]).
Proof.
  destruct (cycle_effect P session_id file_read w)
    as (r & w' & Hrun
        & [(Hsame & Hhist & _)|(a & t & l & Hf & Ht & Hb & _ & Hstage & Hmap)]);
    exists r, w'; (split; [exact Hrun|]); split.
  - intros _. split; [exact Hsame|]. intros Hnone.
    rewrite Hsame, Hhist. unfold session_of. rewrite Hnone.
    split; reflexivity.
  - intros key Hnone Hsome. rewrite Hsame in Hsome. contradiction.
  - intros [H|H]; destruct Hstage as [[_ Hs]|[_ Hs]]; rewrite Hs in H;
      cbv in H; discriminate.
  - intros key Hnone Hsome.
    destruct (decide (key = session_id)) as [->|Hne].
    + split; [reflexivity|]. exists a, t, l.
      repeat (split; [assumption|]).
      rewrite Hmap, lookup_insert_eq. unfold session_of. rewrite Hnone.
      reflexivity.
    + rewrite Hmap, lookup_insert_ne in Hsome by congruence. contradiction.
Qed.

(** The two early exits, run on a map that has no entry for the session. *)
Example early_exits_on_fresh_session :
  chat_sessions (snd (agent_chat P_ok sid0 (Returned []) w0)) !! sid0 = None
  /\ chat_sessions (snd (agent_chat P_silence sid0 (Returned audio0) w0)) !! sid0
     = None
  /\ chat_sessions (snd (agent_chat P_mute sid0 (Returned audio0) w0)) !! sid0
     = Some [mkTurn user hello; mkTurn assistant FALLBACK_TEXT].
Proof. repeat split; vm_compute; reflexivity. Qed.

(** * Further properties of the pipeline *)

(** ** What a cycle leaves alone, and what it returns *)

(** X1: a cycle does not touch the sessions of other identifiers. *)
Theorem cycle_keeps_other_sessions P session_id file_read w key :
  key <> session_id ->
  chat_sessions (snd (agent_chat P session_id file_read w)) !! key
  = chat_sessions w !! key.
Proof.
  intros Hne.
  destruct (cycle_effect P session_id file_read w)
    as (r & w' & Hrun & [(Hsame & _)|(a & t & l & _ & _ & _ & _ & _ & Hmap)]);
    rewrite Hrun; cbn [snd].
  - rewrite Hsame. reflexivity.
  - rewrite Hmap, lookup_insert_ne by congruence. reflexivity.
Qed.

Lemma cycle_keeps_other_sessions_witness :
  lit "s2" <> sid0
  /\ chat_sessions (snd (agent_chat P_ok sid0 (Returned audio0) w0)) !! lit "s2"
     = chat_sessions w0 !! lit "s2".
Proof.
  assert (Hne : lit "s2" <> sid0) by (cbv; discriminate).
  split; [exact Hne|].
  exact (cycle_keeps_other_sessions P_ok sid0 (Returned audio0) w0 (lit "s2") Hne).
Defined.

(** X2: whatever the exit, the history in the response is the session's turn
    list as stored once the cycle is over (the empty list when the session
    has no entry). *)
Theorem history_is_stored_session P session_id file_read w :
  exists r w',
    agent_chat P session_id file_read w = (Returned r, w')
    /\ chat_history r = session_of w' session_id.
Proof.
  destruct (agent_chat_cases P session_id file_read w)
    as [(e & _ & Hrun)
       |[(a & -> & _ & _ & Hrun)
        |[(a & -> & _ & _ & _ & Hrun)
         |(a & -> & _ & _ & _ & Hrun)]]];
    do 2 eexists; (split; [exact Hrun|]);
    rewrite ?session_of_stored; reflexivity.
Qed.

(** X3: the response is always complete: the reply is never blank; with no
    error the transcription is not blank either; with an error the reply is
    the fallback text, the stage is one of [input], [stt], [llm], and the
    transcription is empty for the first two and the recognised text for the
    third. *)
Theorem response_well_formed P session_id file_read w :
  exists r w',
    agent_chat P session_id file_read w = (Returned r, w')
    /\ blank (llm_response r) = false
    /\ match error r with
       | None => blank (transcription r) = false
       | Some err =>
           llm_response r = FALLBACK_TEXT
           /\ (stage err = lit "input" /\ transcription r = []
               \/ stage err = lit "stt" /\ transcription r = []
               \/ stage err = lit "llm" /\ blank (transcription r) = false)
       end.
Proof.
  destruct (agent_chat_cases P session_id file_read w)
    as [(e & _ & Hrun)
       |[(a & -> & _ & _ & Hrun)
        |[(a & -> & _ & Hb & _ & Hrun)
         |(a & -> & _ & Hb & Hl & Hrun)]]];
    do 2 eexists; (split; [exact Hrun|]); cbn [llm_response error transcription stage].
  - split; [exact FALLBACK_TEXT_nonblank|]. split; [reflexivity|].
    left. split; reflexivity.
  - split; [exact FALLBACK_TEXT_nonblank|]. split; [reflexivity|].
    right. left. split; reflexivity.
  - split; [exact FALLBACK_TEXT_nonblank|]. split; [reflexivity|].
    right. right. split; [reflexivity|exact Hb].
  - split; [exact Hl|exact Hb].
Qed.

(** ** Which adapters a failing cycle calls *)

(** X4: a cycle that reports an error makes exactly one call of [synthesize], on
    the fallback text, as its last call.  An [input] failure calls nothing
    else; an [stt] failure has called [transcribe] before and never the
    generator; an [llm] failure has called [transcribe] and then the
    generator, once each. *)
Theorem failing_cycle_calls P session_id file_read w :
  exists r w' new,
    agent_chat P session_id file_read w = (Returned r, w')
    /\ calls w' = calls w ++ new
    /\ match error r with
       | None => True
       | Some err =>
           (stage err = lit "input" /\ new = [CallTTS FALLBACK_TEXT None])
           \/ (stage err = lit "stt"
               /\ exists audio_bytes,
                    file_read = Returned audio_bytes
                    /\ new = [CallSTT audio_bytes; CallTTS FALLBACK_TEXT None])
           \/ (stage err = lit "llm"
               /\ exists audio_bytes dialog,
                    file_read = Returned audio_bytes
                    /\ new = [CallSTT audio_bytes; CallLLM dialog;
                              CallTTS FALLBACK_TEXT None])
       end.
Proof.
  destruct (agent_chat_cases P session_id file_read w)
    as [(e & _ & Hrun)
       |[(a & -> & _ & _ & Hrun)
        |[(a & -> & _ & _ & _ & Hrun)
         |(a & -> & _ & _ & _ & Hrun)]]];
    do 3 eexists; (split; [exact Hrun|]); cbn [calls logged error stage];
    (split; [reflexivity|]).
  - left. split; reflexivity.
  - right. left. split; [reflexivity|]. eexists. split; reflexivity.
  - right. right. split; [reflexivity|]. do 2 eexists. split; reflexivity.
  - exact I.
Qed.

(** ** The shape of stored sessions *)

Lemma alternating_app (session more : list Turn) :
  alternating session = true ->
  alternating (session ++ more) = alternating more.
Proof.
  remember (length session) as n eqn:Hn. revert session Hn.
  induction n as [n IH] using lt_wf_ind. intros session Hn Halt.
  destruct session as [|[[] a] [|[[] b] rest]]; try discriminate.
  - reflexivity.
  - cbn [app alternating length] in Hn, Halt |- *.
    exact (IH (length rest) ltac:(lia) rest eq_refl Halt).
Qed.

Lemma alternating_even (session : list Turn) :
  alternating session = true -> Nat.even (length session) = true.
Proof.
  remember (length session) as n eqn:Hn. revert session Hn.
  induction n as [n IH] using lt_wf_ind. intros session Hn Halt.
  destruct session as [|[[] a] [|[[] b] rest]]; try discriminate.
  - subst n. reflexivity.
  - cbn [length] in Hn. subst n. cbn [Nat.even alternating] in Halt |- *.
    exact (IH (length rest) ltac:(lia) rest eq_refl Halt).
Qed.

(** X5: in every state the process can reach, each stored session is a
    non-empty list of user turns each followed by an assistant turn: an
    entry is never left empty, no two turns of the same role follow each
    other, and the length is even. *)
Theorem sessions_alternate P w :
  reachable P w ->
  forall session_id session,
    chat_sessions w !! session_id = Some session ->
    session <> []
    /\ alternating session = true
    /\ Nat.even (length session) = true.
Proof.
  intros Hreach.
  assert (H : forall session_id session,
             chat_sessions w !! session_id = Some session ->
             session <> [] /\ alternating session = true).
  { induction Hreach as [|w sid file_read Hreach IH].
    - intros key session H. cbn [chat_sessions] in H.
      rewrite lookup_empty in H. discriminate.
    - destruct (cycle_effect P sid file_read w)
        as (r & w' & Hrun & [(Hsame & _)|(a & t & l & _ & _ & _ & _ & _ & Hmap)]);
        rewrite Hrun; cbn [snd]; intros key session H.
      + rewrite Hsame in H. exact (IH key session H).
      + rewrite Hmap in H. apply lookup_insert_Some in H.
        destruct H as [[_ <-]|[_ H]]; [|exact (IH key session H)].
        split; [destruct (session_of w sid); discriminate|].
        rewrite alternating_app; [reflexivity|].
        unfold session_of.
        destruct (chat_sessions w !! sid) as [old|] eqn:E; [|reflexivity].
        exact (proj2 (IH _ _ E)). }
  intros session_id session Hs. destruct (H _ _ Hs) as [Hne Halt].
  split; [exact Hne|]. split; [exact Halt|]. exact (alternating_even _ Halt).
Qed.

Lemma sessions_alternate_witness :
  reachable P_mute (snd (agent_chat P_mute sid0 (Returned audio0) (mkWorld ∅ [])))
  /\ forall session_id session,
       chat_sessions (snd (agent_chat P_mute sid0 (Returned audio0) (mkWorld ∅ [])))
         !! session_id = Some session ->
       session <> []
       /\ alternating session = true
       /\ Nat.even (length session) = true.
Proof.
  assert (Hreach : reachable P_mute
                     (snd (agent_chat P_mute sid0 (Returned audio0)
                             (mkWorld ∅ []))))
    by (apply reachable_cycle, reachable_start).
  split; [exact Hreach|].
  exact (sessions_alternate P_mute _ Hreach).
Defined.

(** ** Serving a sequence of requests *)

Lemma nonblank_truthy (s : str) : blank s = false -> truthy s = true.
Proof. destruct s; [discriminate|reflexivity]. Qed.

(** One cycle lengthens the session [key] by two turns when it is the
    cycle's own session and the response carries a transcription, and leaves
    its length alone otherwise. *)
Lemma cycle_growth P session_id file_read w key :
  exists r w',
    agent_chat P session_id file_read w = (Returned r, w')
    /\ length (session_of w' key)
       = length (session_of w key)
         + (if heard key ((session_id, file_read), Returned r) then 2 else 0).
Proof.
  unfold heard.
  destruct (agent_chat_cases P session_id file_read w)
    as [(e & _ & Hrun)
       |[(a & -> & _ & _ & Hrun)
        |[(a & -> & _ & Hb & _ & Hrun)
         |(a & -> & _ & Hb & _ & Hrun)]]];
    do 2 eexists; (split; [exact Hrun|]); cbn [transcription truthy].
  - rewrite andb_false_r. unfold session_of, logged. cbn [chat_sessions]. lia.
  - rewrite andb_false_r. unfold session_of. cbn [chat_sessions]. lia.
  - rewrite (nonblank_truthy _ Hb), andb_true_r.
    destruct (decide (session_id = key)) as [->|Hne].
    + rewrite session_of_stored, bool_decide_eq_true_2, length_app
        by reflexivity.
      reflexivity.
    + unfold session_of at 1. cbn [chat_sessions].
      rewrite lookup_insert_ne, bool_decide_eq_false_2 by congruence.
      unfold session_of. lia.
  - rewrite (nonblank_truthy _ Hb), andb_true_r.
    destruct (decide (session_id = key)) as [->|Hne].
    + rewrite session_of_stored, bool_decide_eq_true_2, length_app
        by reflexivity.
      reflexivity.
    + unfold session_of at 1. cbn [chat_sessions].
      rewrite lookup_insert_ne, bool_decide_eq_false_2 by congruence.
      unfold session_of. lia.
Qed.

(** X6: over any sequence of requests served one after another, every request
    is answered (none raises), and the session of an identifier grows by
    exactly two turns for each of its requests answered with a
    transcription, whatever happened to the other requests in between. *)
Theorem served_session_length P requests w session_id :
  length (fst (serve P requests w)) = length requests
  /\ Forall (fun r => exists response, r = Returned response)
       (fst (serve P requests w))
  /\ length (session_of (snd (serve P requests w)) session_id)
     = length (session_of w session_id)
       + 2 * length (List.filter (heard session_id)
                       (combine requests (fst (serve P requests w)))).
Proof.
  revert w. induction requests as [|[sid file_read] rest IH]; intros w.
  - cbn. repeat split; [constructor|lia].
  - cbn [serve].
    destruct (cycle_growth P sid file_read w session_id)
      as (r & w' & Hrun & Hlen).
    rewrite Hrun. destruct (IH w') as (IH1 & IH2 & IH3).
    destruct (serve P rest w') as [rs w''] eqn:Es.
    cbn [fst snd] in *. cbn [length combine List.filter].
    split; [lia|]. split; [constructor; [eexists; reflexivity|exact IH2]|].
    rewrite IH3, Hlen.
    destruct (heard session_id (sid, file_read, Returned r)); cbn [length]; lia.
Qed.

(** ** More on chunked synthesis *)

Lemma chunk_lookup (llm_text : str) i chunk :
  map (chunk_at llm_text) (range 0 (length llm_text) CHUNK_SIZE) !! i
  = Some chunk ->
  i * CHUNK_SIZE < length llm_text
  /\ chunk = chunk_at llm_text (i * CHUNK_SIZE)
  /\ length chunk = Nat.min CHUNK_SIZE (length llm_text - i * CHUNK_SIZE).
Proof.
  intros H. rewrite list_lookup_fmap in H.
  destruct (range 0 (length llm_text) CHUNK_SIZE !! i) as [j|] eqn:E;
    [|discriminate].
  injection H as <-.
  apply (range_from_lookup CHUNK_SIZE CHUNK_SIZE_pos) in E.
  destruct E as [-> E]. cbn [Nat.add] in *.
  split; [exact E|]. split; [reflexivity|].
  unfold chunk_at, slice. rewrite length_take, length_drop.
  replace (i * CHUNK_SIZE + CHUNK_SIZE - i * CHUNK_SIZE) with CHUNK_SIZE by lia.
  reflexivity.
Qed.

(** X7: the loop never hands [synthesize] an empty chunk, and only the last
    chunk can be shorter than 3000 characters: every earlier one has exactly
    3000, and the last one has what is left of the reply. *)
Theorem chunk_sizes P (llm_text : str) w :
  exists urls w' chunks,
    chunked_synthesis P llm_text w = (Returned urls, w')
    /\ calls w' = calls w ++ map (fun chunk => CallTTS chunk None) chunks
    /\ forall i chunk,
         chunks !! i = Some chunk ->
         1 <= length chunk
         /\ (S i < length chunks -> length chunk = 3000)
         /\ (S i = length chunks ->
             length chunk = length llm_text - i * 3000).
Proof.
  exists (collected P (length (calls w)) llm_text
            (range 0 (length llm_text) CHUNK_SIZE) []).
  eexists. exists (map (chunk_at llm_text) (range 0 (length llm_text) CHUNK_SIZE)).
  split; [unfold chunked_synthesis; apply tts_loop_run|].
  cbn [calls]. split; [rewrite map_map; reflexivity|].
  intros i chunk Hi.
  destruct (chunk_lookup llm_text i chunk Hi) as (Hlt & _ & Hlen).
  change CHUNK_SIZE with 3000 in Hlt, Hlen.
  split; [lia|]. split.
  - intros Hnext.
    destruct (lookup_lt_is_Some_2
                (map (chunk_at llm_text) (range 0 (length llm_text) CHUNK_SIZE))
                (S i) Hnext) as [next Hn].
    destruct (chunk_lookup llm_text (S i) next Hn) as (Hlt' & _).
    change CHUNK_SIZE with 3000 in Hlt'. lia.
  - intros Hlast.
    destruct (range_from_bounds CHUNK_SIZE CHUNK_SIZE_pos
                (length llm_text - 0) 0 (length llm_text) ltac:(lia))
      as [H1 _].
    fold (range 0 (length llm_text) CHUNK_SIZE) in H1.
    rewrite length_map in Hlast. rewrite <- Hlast in H1.
    change CHUNK_SIZE with 3000 in H1. lia.
Qed.

Lemma reference_of_run P chunk w :
  reference_of (fst (synthesize P chunk None w))
  = match synthesize_answer P (length (calls w)) chunk None with
    | Some url => if truthy url then [url] else []
    | None => []
    end.
Proof. rewrite synthesize_run. reflexivity. Qed.

Lemma collected_concat P k llm_text indices audio_urls :
  collected P k llm_text indices audio_urls
  = audio_urls ++ concat (imap (reference_at P llm_text k) indices).
Proof.
  revert k audio_urls.
  induction indices as [|i rest IH]; intros k audio_urls.
  - cbn. rewrite app_nil_r. reflexivity.
  - cbn [collected]. rewrite IH, imap_cons. cbn [concat].
    rewrite (imap_ext (reference_at P llm_text k ∘ S)
               (reference_at P llm_text (S k)) rest).
    + unfold reference_at at 2. rewrite Nat.add_0_r.
      destruct (synthesize_answer P k (chunk_at llm_text i) None) as [url|];
        [destruct (truthy url)|]; rewrite <- ?app_assoc; reflexivity.
    + intros j x _. unfold reference_at. cbn.
      replace (k + S j) with (S (k + j)) by lia. reflexivity.
Qed.

(** X8: the references the loop collects are, in chunk order, those of the
    chunk calls that returned a non-empty reference, each call being made in
    the state where the earlier chunks have been logged: a chunk whose call
    gave [None] or an empty reference is left out, and the others keep their
    order. *)
Theorem collected_references P (llm_text : str) w :
  let chunks :=
    map (chunk_at llm_text) (range 0 (length llm_text) CHUNK_SIZE) in
  fst (chunked_synthesis P llm_text w)
  = Returned
      (concat (imap (fun j chunk =>
                       reference_of
                         (fst (synthesize P chunk None (after_chunks w chunks j))))
                    chunks)).
Proof.
  intros chunks. unfold chunked_synthesis. rewrite tts_loop_run. cbn [fst].
  rewrite collected_concat. cbn [app]. f_equal. f_equal.
  unfold chunks at 2. rewrite imap_fmap.
  apply imap_ext. intros j i Hi. unfold compose. cbn beta.
  rewrite reference_of_run. unfold after_chunks, reference_at. cbn [calls].
  rewrite length_app, length_map, length_take.
  assert (j < length chunks).
  { unfold chunks. rewrite length_map. apply lookup_lt_Some in Hi. exact Hi. }
  replace (Nat.min j (length chunks)) with j by lia.
  reflexivity.
Qed.

(** X9: a cycle on the success path whose loop collected at least one reference
    returns exactly the collected references, reports no error, and makes no
    call after the last chunk: the fallback text is not synthesised. *)
Theorem partial_synthesis_exit P session_id audio_bytes w user_text llm_text
    urls :
  audio_bytes <> [] ->
  fst (transcribe P audio_bytes w) = Returned user_text ->
  blank user_text = false ->
  fst (get_response P
         (build_dialog (session_of w session_id ++ [mkTurn user user_text]))
         (at_generation w session_id audio_bytes user_text))
  = Returned llm_text ->
  blank llm_text = false ->
  fst (chunked_synthesis P llm_text
         (at_synthesis w session_id audio_bytes user_text llm_text))
  = Returned urls ->
  urls <> [] ->
  exists r w',
    agent_chat P session_id (Returned audio_bytes) w = (Returned r, w')
    /\ audioFiles r = urls
    /\ error r = None
    /\ w' = snd (chunked_synthesis P llm_text
                   (at_synthesis w session_id audio_bytes user_text llm_text)).
Proof.
  intros Ha Ht Hb Hg Hl Hc Hne.
  apply transcribe_returned in Ht. apply get_response_returned in Hg.
  unfold at_generation in Hg. cbn [calls] in Hg.
  rewrite length_app in Hg. cbn [length] in Hg.
  replace (length (calls w) + 1) with (S (length (calls w))) in Hg by lia.
  subst user_text llm_text.
  unfold chunked_synthesis in *. rewrite tts_loop_run in Hc |- *.
  unfold at_synthesis in *. cbn [fst snd calls chat_sessions] in Hc |- *.
  rewrite length_app in Hc. cbn [length] in Hc.
  replace (length (calls w) + 2) with (S (S (length (calls w)))) in Hc by lia.
  injection Hc as Hc.
  rewrite (agent_chat_success P session_id w _ Ha Hb Hl). rewrite Hc.
  destruct urls as [|url urls]; [congruence|]. cbn [truthy negb].
  do 2 eexists. split; [reflexivity|]. cbn [audioFiles error].
  rewrite app_nil_r, <- app_assoc. repeat split.
Qed.

Lemma partial_synthesis_exit_witness :
  audio0 <> []
  /\ fst (transcribe P_ok audio0 w0) = Returned hello
  /\ blank hello = false
  /\ fst (get_response P_ok
            (build_dialog (session_of w0 sid0 ++ [mkTurn user hello]))
            (at_generation w0 sid0 audio0 hello))
     = Returned (lit "hi there")
  /\ blank (lit "hi there") = false
  /\ fst (chunked_synthesis P_ok (lit "hi there")
            (at_synthesis w0 sid0 audio0 hello (lit "hi there")))
     = Returned [lit "https://murf/" ++ [2%N]]
  /\ [lit "https://murf/" ++ [2%N]] <> []
  /\ exists r w',
       agent_chat P_ok sid0 (Returned audio0) w0 = (Returned r, w')
       /\ audioFiles r = [lit "https://murf/" ++ [2%N]]
       /\ error r = None
       /\ w' = snd (chunked_synthesis P_ok (lit "hi there")
                      (at_synthesis w0 sid0 audio0 hello (lit "hi there"))).
Proof.
  assert (Ha : audio0 <> []) by discriminate.
  assert (Ht : fst (transcribe P_ok audio0 w0) = Returned hello) by reflexivity.
  assert (Hb : blank hello = false) by reflexivity.
  assert (Hg : fst (get_response P_ok
                      (build_dialog (session_of w0 sid0 ++ [mkTurn user hello]))
                      (at_generation w0 sid0 audio0 hello))
               = Returned (lit "hi there")) by reflexivity.
  assert (Hl : blank (lit "hi there") = false) by reflexivity.
  assert (Hc : fst (chunked_synthesis P_ok (lit "hi there")
                      (at_synthesis w0 sid0 audio0 hello (lit "hi there")))
               = Returned [lit "https://murf/" ++ [2%N]]) by reflexivity.
  assert (Hne : [lit "https://murf/" ++ [2%N]] <> []) by discriminate.
  repeat (split; [assumption|]).
  exact (partial_synthesis_exit P_ok sid0 audio0 w0 hello (lit "hi there")
           [lit "https://murf/" ++ [2%N]] Ha Ht Hb Hg Hl Hc Hne).
Defined.

(** ** The audio list and the texts sent to the synthesiser *)

Lemma fallback_audio_bounds P k :
  Forall (fun url : str => url <> []) (fallback_audio P k)
  /\ length (fallback_audio P k) <= 1.
Proof.
  unfold fallback_audio.
  destruct (synthesize_answer P k FALLBACK_TEXT None) as [[|c url]|];
    cbn [truthy length]; split; try lia; repeat constructor; discriminate.
Qed.

Lemma collected_bounds P k llm_text indices audio_urls :
  Forall (fun url : str => url <> []) audio_urls ->
  Forall (fun url : str => url <> [])
    (collected P k llm_text indices audio_urls)
  /\ length (collected P k llm_text indices audio_urls)
     <= length audio_urls + length indices.
Proof.
  revert k audio_urls.
  induction indices as [|i rest IH]; intros k audio_urls HF; cbn [collected length].
  - split; [exact HF|lia].
  - destruct (synthesize_answer P k (chunk_at llm_text i) None) as [[|c url]|];
      cbn [truthy].
    + destruct (IH (S k) audio_urls HF) as [H1 H2]. split; [exact H1|lia].
    + destruct (IH (S k) (audio_urls ++ [c :: url])) as [H1 H2].
      { apply Forall_app. split; [exact HF|]. repeat constructor. discriminate. }
      split; [exact H1|]. rewrite length_app in H2. cbn [length] in H2. lia.
    + destruct (IH (S k) audio_urls HF) as [H1 H2]. split; [exact H1|lia].
Qed.

(** X10: the audio list of a response never holds an empty reference; it has at
    most one entry when an error is reported, and otherwise at most as many
    entries as the reply has chunks (and at most one for a reply of one
    chunk). *)
Theorem audio_list_bounds P session_id file_read w :
  exists r w',
    agent_chat P session_id file_read w = (Returned r, w')
    /\ Forall (fun url : str => url <> []) (audioFiles r)
    /\ length (audioFiles r)
       <= Nat.max 1 (length (range 0 (length (llm_response r)) CHUNK_SIZE))
    /\ match error r with
       | Some _ => length (audioFiles r) <= 1
       | None => True
       end.
Proof.
  destruct (agent_chat_cases P session_id file_read w)
    as [(e & _ & Hrun)
       |[(a & -> & _ & _ & Hrun)
        |[(a & -> & _ & _ & _ & Hrun)
         |(a & -> & _ & _ & _ & Hrun)]]];
    do 2 eexists; (split; [exact Hrun|]); cbn [audioFiles llm_response error].
  1-3: match goal with
       | |- context [fallback_audio ?p ?k] =>
           destruct (fallback_audio_bounds p k) as [H1 H2]
       end;
       split; [exact H1|]; split; [lia|exact H2].
  match goal with
  | |- context [collected ?p ?k ?t ?ix []] =>
      destruct (collected_bounds p k t ix [] ltac:(constructor)) as [H1 H2];
      destruct (truthy (collected p k t ix [])) eqn:Ht
  end; cbn [negb].
  - split; [exact H1|]. split; [cbn [length] in H2; lia|exact I].
  - match goal with
    | |- context [fallback_audio ?p ?k] =>
        destruct (fallback_audio_bounds p k) as [H3 H4]
    end.
    split; [exact H3|]. split; [lia|exact I].
Qed.

(** X11: every text a cycle sends to the synthesiser, chunk or fallback text, has
    between 1 and 3000 characters, and every call leaves the voice to the
    adapter's default. *)
Theorem synthesized_texts_within_limit P session_id file_read w :
  exists r w' new,
    agent_chat P session_id file_read w = (Returned r, w')
    /\ calls w' = calls w ++ new
    /\ Forall (fun c =>
                 match c with
                 | CallTTS text voice_id =>
                     voice_id = None /\ 1 <= length text <= 3000
                 | _ => True
                 end) new.
Proof.
  assert (Hfb : 1 <= length FALLBACK_TEXT <= 3000).
  { change (length FALLBACK_TEXT) with 40. lia. }
  destruct (agent_chat_cases P session_id file_read w)
    as [(e & _ & Hrun)
       |[(a & -> & _ & _ & Hrun)
        |[(a & -> & _ & _ & _ & Hrun)
         |(a & -> & _ & _ & _ & Hrun)]]];
    do 3 eexists; (split; [exact Hrun|]); cbn [calls logged];
    (split; [reflexivity|]).
  1-3: repeat constructor; apply Hfb.
  repeat (apply Forall_cons; split; [exact I|]).
  apply Forall_app. split.
  - rewrite <- (map_map (chunk_at _) (fun chunk => CallTTS chunk None)).
    apply Forall_lookup. intros i c Hi.
    rewrite list_lookup_fmap in Hi.
    destruct (map (chunk_at _) _ !! i) as [chunk|] eqn:E; [|discriminate].
    injection Hi as <-.
    destruct (chunk_lookup _ i chunk E) as (Hlt & _ & Hlen).
    change CHUNK_SIZE with 3000 in Hlt, Hlen. split; [reflexivity|lia].
  - destruct (negb _); repeat constructor; apply Hfb.
Qed.

(** ** Missing credentials *)

Lemma client_if_key_absent {C : Type} (Client : str -> C) api_key :
  api_key = None \/ api_key = Some [] -> client_if_key Client api_key = None.
Proof. intros [->| ->]; reflexivity. Qed.

Lemma collected_without_client P k llm_text indices :
  murf_client P = None -> collected P k llm_text indices [] = [].
Proof.
  intros Hm. revert k. induction indices as [|i rest IH]; intros k;
    cbn [collected]; [reflexivity|].
  unfold synthesize_answer. rewrite Hm. apply IH.
Qed.

(** X12: when [MURF_API_KEY] is not set, or set to the empty text, every cycle
    still returns a response, and its audio list is empty whichever exit it
    takes. *)
Theorem no_murf_key_no_audio sdk env session_id file_read w :
  MURF_API_KEY env = None \/ MURF_API_KEY env = Some [] ->
  exists r w',
    agent_chat (services sdk env) session_id file_read w = (Returned r, w')
    /\ audioFiles r = [].
Proof.
  intros Hkey.
  assert (Hm : murf_client (services sdk env) = None)
    by (apply client_if_key_absent; exact Hkey).
  assert (Hf : forall k, fallback_audio (services sdk env) k = []).
  { intros k. unfold fallback_audio, synthesize_answer. rewrite Hm. reflexivity. }
  destruct (agent_chat_cases (services sdk env) session_id file_read w)
    as [(e & _ & Hrun)
       |[(a & -> & _ & _ & Hrun)
        |[(a & -> & _ & _ & _ & Hrun)
         |(a & -> & _ & _ & _ & Hrun)]]];
    do 2 eexists; (split; [exact Hrun|]); cbn [audioFiles]; rewrite ?Hf;
    try reflexivity.
  rewrite (collected_without_client _ _ _ _ Hm). reflexivity.
Qed.

Lemma no_murf_key_no_audio_witness :
  (MURF_API_KEY env_no_murf = None \/ MURF_API_KEY env_no_murf = Some [])
  /\ exists r w',
       agent_chat (services sdk0 env_no_murf) sid0 (Returned audio0) w0
       = (Returned r, w')
       /\ audioFiles r = [].
Proof.
  assert (Hkey : MURF_API_KEY env_no_murf = None
                 \/ MURF_API_KEY env_no_murf = Some [])
    by (left; reflexivity).
  split; [exact Hkey|].
  exact (no_murf_key_no_audio sdk0 env_no_murf sid0 (Returned audio0) w0 Hkey).
Defined.

(** X13: when [GEMINI_API_KEY] is not set, or set to the empty text, no cycle
    reaches the success exit: every response reports an error and carries
    the fallback text as reply, and a cycle whose upload was transcribed
    reports the stage [llm], having stored the user turn and the fallback
    turn. *)
Theorem no_gemini_key_no_reply sdk env session_id file_read w :
  GEMINI_API_KEY env = None \/ GEMINI_API_KEY env = Some [] ->
  exists r w' err,
    agent_chat (services sdk env) session_id file_read w = (Returned r, w')
    /\ error r = Some err
    /\ llm_response r = FALLBACK_TEXT
    /\ (transcription r <> [] ->
        stage err = lit "llm"
        /\ session_of w' session_id
           = session_of w session_id
               ++ [mkTurn user (transcription r);
                   mkTurn assistant FALLBACK_TEXT]).
Proof.
  intros Hkey.
  assert (Hg : genai_client (services sdk env) = None)
    by (apply client_if_key_absent; exact Hkey).
  destruct (agent_chat_cases (services sdk env) session_id file_read w)
    as [(e & _ & Hrun)
       |[(a & -> & _ & _ & Hrun)
        |[(a & -> & _ & _ & _ & Hrun)
         |(a & -> & _ & _ & Hl & _)]]].
  - do 3 eexists. split; [exact Hrun|]. cbn [error llm_response transcription].
    repeat split; congruence.
  - do 3 eexists. split; [exact Hrun|]. cbn [error llm_response transcription].
    repeat split; congruence.
  - do 3 eexists. split; [exact Hrun|]. cbn [error llm_response transcription stage].
    rewrite session_of_stored. repeat split.
  - unfold get_response_answer in Hl. rewrite Hg in Hl. discriminate.
Qed.

Lemma no_gemini_key_no_reply_witness :
  (GEMINI_API_KEY env_empty_gemini = None
   \/ GEMINI_API_KEY env_empty_gemini = Some [])
  /\ exists r w' err,
       agent_chat (services sdk0 env_empty_gemini) sid0 (Returned audio0) w0
       = (Returned r, w')
       /\ error r = Some err
       /\ llm_response r = FALLBACK_TEXT
       /\ (transcription r <> [] ->
           stage err = lit "llm"
           /\ session_of w' sid0
              = session_of w0 sid0
                  ++ [mkTurn user (transcription r);
                      mkTurn assistant FALLBACK_TEXT]).
Proof.
  assert (Hkey : GEMINI_API_KEY env_empty_gemini = None
                 \/ GEMINI_API_KEY env_empty_gemini = Some [])
    by (right; reflexivity).
  split; [exact Hkey|].
  exact (no_gemini_key_no_reply sdk0 env_empty_gemini sid0 (Returned audio0) w0
           Hkey).
Defined.

(** ** The synthesiser cannot change the text of a response *)

(** X14: two sets of providers that differ only in the synthesiser give, from the
    same state and for the same request, responses with the same
    transcription, reply, history and error, and the same session map:
    whatever the synthesiser does shows in the audio list only. *)
Theorem synthesiser_only_affects_audio stt llm tts tts' session_id file_read w :
  exists r w' r' w'',
    agent_chat (mkProviders stt llm tts) session_id file_read w = (Returned r, w')
    /\ agent_chat (mkProviders stt llm tts') session_id file_read w
       = (Returned r', w'')
    /\ transcription r' = transcription r
    /\ llm_response r' = llm_response r
    /\ chat_history r' = chat_history r
    /\ error r' = error r
    /\ chat_sessions w'' = chat_sessions w'.
Proof.
  destruct (agent_chat_cases (mkProviders stt llm tts) session_id file_read w)
    as [(e & He & Hrun)
       |[(a & -> & Ha & Hb & Hrun)
        |[(a & -> & Ha & Hb & Hl & Hrun)
         |(a & -> & Ha & Hb & Hl & Hrun)]]].
  - do 4 eexists. split; [exact Hrun|].
    split; [exact (agent_chat_input (mkProviders stt llm tts')
                     session_id w file_read e He)|].
    repeat split.
  - do 4 eexists. split; [exact Hrun|].
    split; [exact (agent_chat_stt (mkProviders stt llm tts')
                     session_id w a Ha Hb)|].
    repeat split.
  - do 4 eexists. split; [exact Hrun|].
    split; [exact (agent_chat_llm (mkProviders stt llm tts')
                     session_id w a Ha Hb Hl)|].
    repeat split.
  - do 4 eexists. split; [exact Hrun|].
    split; [exact (agent_chat_success (mkProviders stt llm tts')
                     session_id w a Ha Hb Hl)|].
    repeat split.
Qed.

(** ** The flattened dialog does not tell turns apart *)

Lemma join_snoc sep (parts : list str) (p : str) :
  parts <> [] -> join sep (parts ++ [p]) = join sep parts ++ sep ++ p.
Proof.
  induction parts as [|q [|q' rest] IH]; intros Hne; [congruence|reflexivity|].
  specialize (IH ltac:(discriminate)).
  change (join sep ((q :: q' :: rest) ++ [p]))
    with (q ++ sep ++ join sep ((q' :: rest) ++ [p])).
  rewrite IH.
  change (join sep (q :: q' :: rest)) with (q ++ sep ++ join sep (q' :: rest)).
  rewrite <- !app_assoc. reflexivity.
Qed.

(** X15: a user turn whose text contains a newline followed by [AI: ] gives the
    generator the very dialog of a user turn followed by an assistant turn:
    the flattening keeps no trace of where a turn ends. *)
Theorem dialog_ambiguous (session : list Turn) (a b : str) :
  build_dialog
    (session
       ++ [mkTurn user (a ++ lit (String "010" EmptyString) ++ lit "AI: " ++ b)])
  = build_dialog (session ++ [mkTurn user a; mkTurn assistant b]).
Proof.
  unfold build_dialog. f_equal.
  set (nl := lit (String "010" EmptyString)).
  replace (session ++ [mkTurn user a; mkTurn assistant b])
    with ((session ++ [mkTurn user a]) ++ [mkTurn assistant b])
    by (rewrite <- app_assoc; reflexivity).
  rewrite !map_app. cbn [map].
  rewrite (join_snoc nl (map dialog_line session ++ [dialog_line (mkTurn user a)]))
    by (destruct (map dialog_line session); discriminate).
  destruct (map dialog_line session) as [|q rest] eqn:E.
  - cbn [app join]. unfold dialog_line. cbn [role content].
    rewrite <- !app_assoc. reflexivity.
  - rewrite !join_snoc by discriminate.
    unfold dialog_line. cbn [role content]. rewrite <- !app_assoc. reflexivity.
Qed.

(** * The echo socket ([websocket_endpoint]) *)

Module Echo.

(** How the connection ends: [receive_text] raises [WebSocketDisconnect]
    with the close code once the client is gone. *)
Inductive Closed := WebSocketDisconnect (code : N).

(** The connection as the handler sees it: whether it was accepted, the text
    frames the client will still send before it disconnects with
    [close_code], and the frames sent to the client so far. *)
Record WebSocket := mkWebSocket {
  accepted : bool;
  inbox : list str;
  close_code : N;
  outbox : list str
}.


(** [await websocket.receive_text()] *)
Definition receive_text (ws : WebSocket) : (str * WebSocket) + Closed :=
  match inbox ws with
  | data :: rest =>
      inl (data, mkWebSocket (accepted ws) rest (close_code ws) (outbox ws))
  | [] => inr (WebSocketDisconnect (close_code ws))
  end.

(** [await websocket.send_text(text)] *)
Definition send_text (text : str) (ws : WebSocket) : WebSocket :=
  mkWebSocket (accepted ws) (inbox ws) (close_code ws) (outbox ws ++ [text]).

(** [while True: ...], unrolled at most [fuel] times; [None] when the fuel
    runs out with the loop still going.  The loop has no exit of its own: it
    ends when [receive_text] raises. *)
Fixpoint echo_loop (fuel : nat) (ws : WebSocket) : option (Closed * WebSocket) :=
  match fuel with
  | O => None
  | S fuel' =>
      match receive_text ws with
      | inl (data, ws') => echo_loop fuel' (send_text (lit "Echo: " ++ data) ws')
      | inr closed => Some (closed, ws)
      end
  end.





(** While frames remain, the handler does not end: it never returns or
    closes the connection on its own. *)
Theorem echo_keeps_serving fuel ws :
  fuel <= length (inbox ws) -> echo_loop fuel ws = None.
Proof.
  revert ws. induction fuel as [|fuel IH]; intros [acc inb code out] Hf;
    cbn [inbox] in *; [reflexivity|].
  destruct inb as [|data rest]; [cbn [length] in Hf; lia|].
  cbn [echo_loop receive_text inbox]. apply IH.
  cbn [send_text inbox length] in *. lia.
Qed.

Lemma echo_keeps_serving_witness :
  2 <= length (inbox (mkWebSocket true [lit "a"; lit "b"; lit "c"] 1000 []))
  /\ echo_loop 2 (mkWebSocket true [lit "a"; lit "b"; lit "c"] 1000 []) = None.
Proof.
  assert (Hf : 2 <= length (inbox (mkWebSocket true [lit "a"; lit "b"; lit "c"]
                                     1000 []))) by (cbn; lia).
  split; [exact Hf|].
  exact (echo_keeps_serving 2 _ Hf).
Defined.

End Echo.

(** * The page script served by [serve_ui]

    The script's handlers as functions on the part of the page they touch.
    JavaScript text is a sequence of UTF-16 code units, held in [str] too;
    the server's text, a sequence of code points, reaches the page through
    the JSON body of the response, which the route can only write when no
    text of the response holds a surrogate code point.
    [String.prototype.toLowerCase] is the browser's and stays a parameter,
    and so does the message of the error [res.json()] throws on a body that
    is not JSON. *)

Module Client.

(** The state class of the status line. *)
Inductive StatusClass := ready | processing | replying.

(** One [div.msg] of the chat log: whether its class is [msg user] (bubble
    before avatar) or [msg ai] (avatar before bubble), and the bubble's
    text. *)
Record Message := mkMessage { msg_user : bool; innerText : str }.

Record Page := mkPage {
  chat : list Message;
  status_textContent : str;
  status_class : option StatusClass;
  playback_src : option str;
  playback_plays : nat;
  chunks : list bytes
}.

(** The body of the response as [res.json()] gives it; a field is [None]
    when the body does not have it (or has [null]). *)
Record Data := mkData {
  data_transcription : option str;
  data_llm_response : option str;
  data_audioFiles : option (list str);
  data_error_stage : option str
}.

(** How [await fetch(...)] and [await res.json()] ended. *)
Inductive Fetched :=
| Got (data : Data)
| Threw (message : str).

(** A code point that UTF-8 can write: at most U+10FFFF and not a surrogate
    (U+D800..U+DFFF). *)
Definition scalar (c : N) : bool :=
  ((c <? 55296) || ((57344 <=? c) && (c <=? 1114111)))%N.

(** The UTF-16 code units of a code point: itself below U+10000, a
    surrogate pair from there on. *)
Definition utf16_units (c : N) : str :=
  if (c <? 65536)%N then [c]
  else [(55296 + (c - 65536) / 1024)%N; (56320 + (c - 65536) mod 1024)%N].

(** The JavaScript text that JSON gives for a Python text. *)
Definition utf16 (s : str) : str := flat_map utf16_units s.

(** The route can write the response as JSON in UTF-8: none of its texts
    (transcription, reply, audio references, contents of the history, stage
    and message of the error) holds a code point that UTF-8 cannot write. *)
Definition encodable (r : ChatResponse) : bool :=
  forallb scalar (transcription r)
  && forallb scalar (llm_response r)
  && forallb (forallb scalar) (audioFiles r)
  && forallb (fun m => forallb scalar (content m)) (chat_history r)
  && match error r with
     | Some err => forallb scalar (stage err) && forallb scalar (message err)
     | None => true
     end.

(** The body the route sends for the handler's [ChatResponse], as
    [res.json()] reads it; [None] when the response cannot be encoded: the
    route then answers 500 with a body that is not JSON. *)
Definition response_json (r : ChatResponse) : option Data :=
  if encodable r then
    Some (mkData (Some (utf16 (transcription r)))
                 (Some (utf16 (llm_response r)))
                 (Some (map utf16 (audioFiles r)))
                 ((fun err => utf16 (stage err)) <$> error r))
  else None.

(** [sub] is a prefix of [s]. *)
Fixpoint startsWith (s sub : str) : bool :=
  match sub, s with
  | [], _ => true
  | c :: sub', d :: s' => (c =? d)%N && startsWith s' sub'
  | _ :: _, [] => false
  end.

(** [s.includes(sub)] *)
Fixpoint includes (s sub : str) : bool :=
  startsWith s sub
  || match s with
     | [] => false
     | _ :: s' => includes s' sub
     end.

Definition warning_sign : str := [9888%N; 65039%N].
Definition check_mark : str := [9989%N].
Definition cross_mark : str := [10060%N].
Definition ellipsis : str := [8230%N].

Section Script.

Variable toLowerCase : str -> str.

(** [error.message] of what [res.json()] throws on the body of a 500. *)
Variable json_error : str.

(** [addMessage(role, txt)] *)
Definition addMessage (role txt : str) (pg : Page) : Page :=
  mkPage (chat pg ++ [mkMessage (bool_decide (role = lit "user")) txt])
         (status_textContent pg) (status_class pg)
         (playback_src pg) (playback_plays pg) (chunks pg).

(** [setStatus(txt, emoji)] *)
Definition setStatus (txt emoji : str) (pg : Page) : Page :=
  mkPage (chat pg)
         ((if truthy emoji then emoji ++ lit " " else []) ++ txt)
         (if includes (toLowerCase txt) (lit "ready") then Some ready
          else if includes (toLowerCase txt) (lit "processing")
                  || includes (toLowerCase txt) (lit "denied")
               then Some processing
          else if includes (toLowerCase txt) (lit "playing")
                  || includes (toLowerCase txt) (lit "reply")
               then Some replying
          else None)
         (playback_src pg) (playback_plays pg) (chunks pg).

(** [recorder.ondataavailable], for a blob holding [data]. *)
Definition ondataavailable (data : bytes) (pg : Page) : Page :=
  if truthy data then
    mkPage (chat pg) (status_textContent pg) (status_class pg)
           (playback_src pg) (playback_plays pg) (chunks pg ++ [data])
  else pg.

(** The request [onStop] sends: the route's session identifier and the
    upload, which holds the recorded chunks one after another. *)
Definition request (pg : Page) : str * bytes :=
  (lit "session1", concat (chunks pg)).

(** [onStop], from the response on. *)
Definition onStop (fetched : Fetched) (pg : Page) : Page :=
  let pg :=
    match fetched with
    | Got data =>
        let pg :=
          match data_transcription data with
          | Some txt => if truthy txt then addMessage (lit "user") txt pg else pg
          | None => pg
          end in
        let pg :=
          match data_llm_response data with
          | Some txt => if truthy txt then addMessage (lit "ai") txt pg else pg
          | None => pg
          end in
        let pg :=
          match data_audioFiles data with
          | Some (first :: _) =>
              setStatus (lit "Audio reply playing" ++ ellipsis) check_mark
                (mkPage (chat pg) (status_textContent pg) (status_class pg)
                        (Some first) (S (playback_plays pg)) (chunks pg))
          | _ => setStatus (lit "No audio returned") warning_sign pg
          end in
        match data_error_stage data with
        | Some name =>
            if truthy name then setStatus (lit "Error: " ++ name) warning_sign pg
            else pg
        | None => pg
        end
    | Threw message =>
        setStatus (lit "Server error: " ++ message) cross_mark pg
    end in
  mkPage (chat pg) (status_textContent pg) (status_class pg)
         (playback_src pg) (playback_plays pg) [].

(** One exchange: the page sends its recording, the server runs a cycle
    and the route encodes its response, the page handles what it gets: the
    parsed body, or the error of [res.json()] when the route answered 500
    (the response could not be encoded, or the handler raised). *)
Definition exchange (P : Providers) (pg : Page) (w : World) : Page * World :=
  let (session_id, upload) := request pg in
  match agent_chat P session_id (Returned upload) w with
  | (Returned r, w') =>
      (onStop (match response_json r with
               | Some data => Got data
               | None => Threw json_error
               end) pg, w')
  | (Raised _, w') => (onStop (Threw json_error) pg, w')
  end.

(** A recording: the data events of one [MediaRecorder] run, in order. *)
Definition record (events : list bytes) (pg : Page) : Page :=
  fold_left (fun pg data => ondataavailable data pg) events pg.

(** ** Properties of the script *)

Lemma setStatus_keeps txt emoji pg :
  chat (setStatus txt emoji pg) = chat pg
  /\ playback_src (setStatus txt emoji pg) = playback_src pg
  /\ playback_plays (setStatus txt emoji pg) = playback_plays pg
  /\ chunks (setStatus txt emoji pg) = chunks pg.
Proof. repeat split. Qed.

Lemma truthy_utf16 (s : str) : truthy (utf16 s) = truthy s.
Proof.
  destruct s as [|c s]; [reflexivity|].
  unfold utf16. cbn [flat_map]. unfold utf16_units.
  destruct (c <? 65536)%N; reflexivity.
Qed.

(** What [onStop] makes of a parsed body that has the four fields, with a
    reply and, if any, an error stage that are not empty. *)
Lemma onStop_data (t l : str) (audio : list str) (stage_name : option str) pg :
  truthy l = true ->
  (forall name, stage_name = Some name -> truthy name = true) ->
  let pg' := onStop (Got (mkData (Some t) (Some l) (Some audio) stage_name)) pg in
  chat pg'
  = chat pg ++ (if truthy t then [mkMessage true t] else [])
      ++ [mkMessage false l]
  /\ chunks pg' = []
  /\ playback_src pg'
     = match audio with
       | first :: _ => Some first
       | [] => playback_src pg
       end
  /\ playback_plays pg' = playback_plays pg + (if truthy audio then 1 else 0)
  /\ status_textContent pg'
     = match stage_name with
       | Some name => warning_sign ++ lit " Error: " ++ name
       | None =>
           if truthy audio
           then check_mark ++ lit " Audio reply playing" ++ ellipsis
           else warning_sign ++ lit " No audio returned"
       end.
Proof.
  intros Hl Hstage. unfold onStop.
  cbn [data_transcription data_llm_response data_audioFiles data_error_stage].
  rewrite Hl.
  destruct t as [|c t]; destruct audio as [|first rest];
    destruct stage_name as [name|]; cbn [truthy];
    rewrite ?(Hstage name eq_refl);
    cbn [addMessage setStatus chat chunks playback_src playback_plays
         status_textContent app truthy];
    repeat split; try reflexivity; try lia;
    rewrite <- app_assoc; reflexivity.
Qed.

(** What [onStop] makes of the error of [res.json()]. *)
Lemma onStop_threw message pg :
  let pg' := onStop (Threw message) pg in
  chat pg' = chat pg
  /\ chunks pg' = []
  /\ playback_src pg' = playback_src pg
  /\ playback_plays pg' = playback_plays pg
  /\ status_textContent pg' = cross_mark ++ lit " Server error: " ++ message.
Proof. repeat split. Qed.

(** X17: one exchange with the server always leaves the page with the
    recorded chunks dropped.  When the route can encode the response, the
    page has one more [ai] message carrying the reply, before it a [user]
    message exactly when the response carries a transcription, and a status
    that names the error stage whenever the response reports one, even while
    the fallback audio plays; of the audio list only the first reference is
    ever given to the player, so the audio of the later chunks of a long
    reply is not played; all texts are shown as the UTF-16 form of the
    server's.  When the route cannot encode the response (some text holds a
    surrogate), the page takes the [catch] path: no message is added, the
    player is left alone and the status is the cross mark and [Server
    error: ] with the message of the JSON error. *)
Theorem exchange_page P pg w :
  exists r w',
    agent_chat P (lit "session1") (Returned (concat (chunks pg))) w
    = (Returned r, w')
    /\ snd (exchange P pg w) = w'
    /\ chunks (fst (exchange P pg w)) = []
    /\ if encodable r then
         chat (fst (exchange P pg w))
         = chat pg
             ++ (if truthy (transcription r)
                 then [mkMessage true (utf16 (transcription r))] else [])
             ++ [mkMessage false (utf16 (llm_response r))]
         /\ playback_src (fst (exchange P pg w))
            = match audioFiles r with
              | first :: _ => Some (utf16 first)
              | [] => playback_src pg
              end
         /\ playback_plays (fst (exchange P pg w))
            = playback_plays pg + (if truthy (audioFiles r) then 1 else 0)
         /\ status_textContent (fst (exchange P pg w))
            = match error r with
              | Some err => warning_sign ++ lit " Error: " ++ utf16 (stage err)
              | None =>
                  if truthy (audioFiles r)
                  then check_mark ++ lit " Audio reply playing" ++ ellipsis
                  else warning_sign ++ lit " No audio returned"
              end
       else
         chat (fst (exchange P pg w)) = chat pg
         /\ playback_src (fst (exchange P pg w)) = playback_src pg
         /\ playback_plays (fst (exchange P pg w)) = playback_plays pg
         /\ status_textContent (fst (exchange P pg w))
            = cross_mark ++ lit " Server error: " ++ json_error.
Proof.
  assert (exists r w',
             agent_chat P (lit "session1") (Returned (concat (chunks pg))) w
             = (Returned r, w')
             /\ truthy (llm_response r) = true
             /\ forall err, error r = Some err -> truthy (stage err) = true)
    as (r & w' & Hrun & Hl & Herr).
  { destruct (agent_chat_cases P (lit "session1")
                (Returned (concat (chunks pg))) w)
      as [(e & _ & Hrun)
         |[(a & _ & _ & _ & Hrun)
          |[(a & _ & _ & _ & _ & Hrun)
           |(a & _ & _ & _ & Hl & Hrun)]]];
      do 2 eexists; (split; [exact Hrun|]); cbn [llm_response error].
    1-3: split; [reflexivity|]; intros err [= <-]; reflexivity.
    split; [exact (nonblank_truthy _ Hl)|]. intros err [=]. }
  exists r, w'. split; [exact Hrun|].
  unfold exchange, request. rewrite Hrun. cbn [fst snd].
  split; [reflexivity|]. unfold response_json.
  destruct (encodable r).
  - destruct (onStop_data (utf16 (transcription r)) (utf16 (llm_response r))
                (map utf16 (audioFiles r))
                ((fun err => utf16 (stage err)) <$> error r) pg)
      as (H1 & H2 & H3 & H4 & H5).
    { rewrite truthy_utf16. exact Hl. }
    { intros name Hn. destruct (error r) as [err|] eqn:E; [|discriminate].
      injection Hn as <-. rewrite truthy_utf16. exact (Herr err eq_refl). }
    split; [exact H2|].
    rewrite truthy_utf16 in H1.
    split; [exact H1|]. split; [|split].
    + rewrite H3. destruct (audioFiles r); reflexivity.
    + rewrite H4. destruct (audioFiles r); reflexivity.
    + rewrite H5. destruct (error r); [reflexivity|].
      destruct (audioFiles r); reflexivity.
  - repeat split.
Qed.

(** X18: a recording that produced no data is answered by the [input] exit,
    and the server's sessions are as they were.  The response can be encoded
    exactly when the fallback audio reference and the turns already stored
    for the page's session hold no surrogate; the page then shows the
    fallback text as an [ai] message and no [user] message, and its status
    is the warning sign and [Error: input].  Otherwise the page takes the
    [catch] path: no message, and the status [Server error: ] with the
    message of the JSON error. *)
Theorem silent_recording P pg w :
  chunks pg = [] ->
  exists r w',
    agent_chat P (lit "session1") (Returned []) w = (Returned r, w')
    /\ snd (exchange P pg w) = w'
    /\ error_stage r = Some (lit "input")
    /\ chat_sessions w' = chat_sessions w
    /\ chunks (fst (exchange P pg w)) = []
    /\ encodable r
       = forallb (forallb scalar) (audioFiles r)
         && forallb (fun m => forallb scalar (content m))
              (session_of w (lit "session1"))
    /\ if encodable r then
         chat (fst (exchange P pg w))
         = chat pg ++ [mkMessage false FALLBACK_TEXT]
         /\ status_textContent (fst (exchange P pg w))
            = warning_sign ++ lit " Error: input"
       else
         chat (fst (exchange P pg w)) = chat pg
         /\ status_textContent (fst (exchange P pg w))
            = cross_mark ++ lit " Server error: " ++ json_error.
Proof.
  intros Hc.
  pose proof (agent_chat_input P (lit "session1") w (Returned [])
                (ValueError (lit "No audio bytes received"))
                (or_intror (conj eq_refl eq_refl))) as Hrun.
  do 2 eexists. split; [exact Hrun|].
  unfold exchange, request. rewrite Hc. cbn [concat]. rewrite Hrun.
  cbn [fst snd]. split; [reflexivity|]. split; [reflexivity|].
  split; [reflexivity|]. unfold response_json.
  set (r := mkChatResponse [] FALLBACK_TEXT
              (fallback_audio P (length (calls w)))
              (session_of w (lit "session1"))
              (Some (mkError (lit "input")
                       (str_of_exn (ValueError (lit "No audio bytes received")))))).
  assert (Henc : encodable r
                 = forallb (forallb scalar) (audioFiles r)
                   && forallb (fun m => forallb scalar (content m))
                        (session_of w (lit "session1"))).
  { unfold encodable, r.
    cbn [transcription llm_response audioFiles chat_history error stage message].
    change (forallb scalar []) with true.
    change (forallb scalar FALLBACK_TEXT) with true.
    change (forallb scalar (lit "input")) with true.
    change (forallb scalar
              (str_of_exn (ValueError (lit "No audio bytes received"))))
      with true.
    cbn [andb]. rewrite andb_true_r. reflexivity. }
  destruct (encodable r) eqn:E.
  - destruct (onStop_data (utf16 (transcription r)) (utf16 (llm_response r))
                (map utf16 (audioFiles r))
                ((fun err => utf16 (stage err)) <$> error r) pg
                eq_refl)
      as (H1 & H2 & _ & _ & H5).
    { intros name [= <-]. reflexivity. }
    split; [exact H2|]. split; [exact Henc|].
    split; [exact H1|exact H5].
  - split; [reflexivity|]. split; [exact Henc|]. split; reflexivity.
Qed.

(** X19: the chunk list holds the data of the recorder's events in order, without
    the empty ones, so the upload is everything that was recorded, and it is
    empty exactly when no event carried data. *)
Theorem recorded_upload (events : list bytes) pg :
  chunks (record events pg) = chunks pg ++ List.filter truthy events
  /\ snd (request (record events pg)) = snd (request pg) ++ concat events
  /\ Forall (fun data : bytes => data <> []) (List.filter truthy events).
Proof.
  assert (H : chunks (record events pg) = chunks pg ++ List.filter truthy events).
  { revert pg. unfold record.
    induction events as [|data rest IH]; intros pg; cbn [fold_left List.filter].
    - rewrite app_nil_r. reflexivity.
    - rewrite IH. unfold ondataavailable.
      destruct (truthy data); cbn [chunks];
        rewrite <- ?app_assoc; reflexivity. }
  split; [exact H|]. split.
  - unfold request. cbn [snd]. rewrite H, concat_app. f_equal.
    clear H. induction events as [|[|b data] rest IH];
      cbn [List.filter truthy concat]; [reflexivity|exact IH|].
    rewrite IH. reflexivity.
  - clear H. induction events as [|[|b data] rest IH];
      cbn [List.filter truthy]; [constructor|exact IH|].
    constructor; [discriminate|exact IH].
Qed.

End Script.

(** Lower case for the letters A to Z, as a sample [toLowerCase]. *)
Definition ascii_lower (s : str) : str :=
  map (fun c => if ((65 <=? c) && (c <=? 90))%N then (c + 32)%N else c) s.

Lemma silent_recording_witness :
  chunks (mkPage [] (lit "Ready to record") (Some ready) None 0 []) = []
  /\ exists r w',
       agent_chat P_ok (lit "session1") (Returned []) w0 = (Returned r, w')
       /\ snd (exchange ascii_lower (lit "Unexpected token") P_ok
                 (mkPage [] (lit "Ready to record") (Some ready) None 0 []) w0)
          = w'
       /\ error_stage r = Some (lit "input")
       /\ chat_sessions w' = chat_sessions w0
       /\ chunks (fst (exchange ascii_lower (lit "Unexpected token") P_ok
                         (mkPage [] (lit "Ready to record") (Some ready) None 0 [])
                         w0)) = []
       /\ encodable r
          = forallb (forallb scalar) (audioFiles r)
            && forallb (fun m => forallb scalar (content m))
                 (session_of w0 (lit "session1"))
       /\ if encodable r then
            chat (fst (exchange ascii_lower (lit "Unexpected token") P_ok
                         (mkPage [] (lit "Ready to record") (Some ready) None 0 [])
                         w0))
            = chat (mkPage [] (lit "Ready to record") (Some ready) None 0 [])
                ++ [mkMessage false FALLBACK_TEXT]
            /\ status_textContent
                 (fst (exchange ascii_lower (lit "Unexpected token") P_ok
                         (mkPage [] (lit "Ready to record") (Some ready) None 0 [])
                         w0))
               = warning_sign ++ lit " Error: input"
          else
            chat (fst (exchange ascii_lower (lit "Unexpected token") P_ok
                         (mkPage [] (lit "Ready to record") (Some ready) None 0 [])
                         w0))
            = chat (mkPage [] (lit "Ready to record") (Some ready) None 0 [])
            /\ status_textContent
                 (fst (exchange ascii_lower (lit "Unexpected token") P_ok
                         (mkPage [] (lit "Ready to record") (Some ready) None 0 [])
                         w0))
               = cross_mark ++ lit " Server error: " ++ lit "Unexpected token".
Proof.
  assert (Hc : chunks (mkPage [] (lit "Ready to record") (Some ready) None 0 [])
               = []) by reflexivity.
  split; [exact Hc|].
  exact (silent_recording ascii_lower (lit "Unexpected token") P_ok _ w0 Hc).
Defined.

(** Two exchanges, run.  A transcription that is a lone surrogate cannot be
    encoded: the page shows no message and the [Server error: ] status,
    although the server has stored both turns.  A reply that is one
    character beyond U+FFFF is shown as its surrogate pair. *)
Definition P_lone_surrogate : Providers :=
  mkProviders (fun _ _ => Returned (Some [55357%N]))
              (genai_client P_ok) (murf_client P_ok).

Definition P_emoji : Providers :=
  mkProviders (aai_transcribe P_ok)
              (Some (fun _ _ => Returned (Some [128512%N])))
              (murf_client P_ok).

Definition recorded_page : Page :=
  mkPage [] (lit "Processing") (Some processing) None 0 [[x01; x02]].

Example exchange_with_surrogates :
  (let '(pg, w) :=
     exchange ascii_lower (lit "Unexpected token") P_lone_surrogate
       recorded_page w0 in
   chat pg = []
   /\ status_textContent pg
      = cross_mark ++ lit " Server error: Unexpected token"
   /\ length (session_of w (lit "session1")) = 2)
  /\ (let '(pg, w) :=
        exchange ascii_lower (lit "Unexpected token") P_emoji recorded_page w0 in
      chat pg = [mkMessage true hello; mkMessage false [55357%N; 56832%N]]
      /\ status_textContent pg
         = check_mark ++ lit " Audio reply playing" ++ ellipsis).
Proof. split; vm_compute; repeat split. Qed.

End Client.
